(** * Geiger counter: pulse aggregator, snapshot, broadcast hub, pulse source

    A shallow embedding of [geiger.py], [app.py] and [main.py].

    - Python [float] is IEEE binary64: it is embedded as Rocq's primitive
      [float], whose operations are the hardware ones.
    - Python [int] is unbounded: it is embedded as [Z].
    - [time.time()] is an input: every operation that reads the clock takes
      the reading [now] as an argument.
    - [with self.lock:] makes each method body atomic; the embedding is the
      sequential semantics of these atomic bodies. *)

From Stdlib Require Import ZArith Lia Floats.
From stdpp Require Import base list gmap strings pretty.

Open Scope Z_scope.

(** ** The Python operations the program uses *)

Module Py.

(** [l[start:]]: a negative start counts from the end, and the start is
    clamped to the bounds of the list. *)
Definition slice_from {A : Type} (start : Z) (l : list A) : list A :=
  let len := Z.of_nat (length l) in
  let i := if start <? 0 then Z.max (start + len) 0 else Z.min start len in
  drop (Z.to_nat i) l.

(** [max(a, b)] on floats: the second argument replaces the first only when
    it compares greater. *)
Definition max (a b : float) : float :=
  if (a <? b)%float then b else a.

(** Truth value of a float, as in [if x]: false exactly for zeros. *)
Definition truth (x : float) : bool := negb (x =? 0)%float.

(** [float(n)] for an int: the nearest binary64, ties to even. CPython raises
    OverflowError from 2^1024 - 2^970 on, where this function returns an
    infinity; the counters of this program grow by one per call and stay far
    from there. *)
Definition float_of_int (n : Z) : float :=
  SF2Prim (binary_normalize prec emax n 0 false).

Definition int_as_spec (n : Z) : spec_float :=
  match n with
  | Z0 => S754_zero false
  | Zpos p => S754_finite false p 0
  | Zneg p => S754_finite true p 0
  end.

(** [a / b] on ints with [b > 0]: the binary64 nearest to the exact
    quotient. *)
Definition int_truediv (a : Z) (b : positive) : float :=
  SF2Prim (SFdiv prec emax (int_as_spec a) (S754_finite false b 0)).

(** [math.sqrt(n)] for an int [n]. *)
Definition math_sqrt (n : Z) : float := PrimFloat.sqrt (float_of_int n).

(** [int(x)] for a float: truncation towards zero; it raises on infinities
    and NaN ([None]). *)
Definition int_of_float (x : float) : option Z :=
  match Prim2SF x with
  | S754_zero _ => Some 0
  | S754_finite s m e =>
      Some (cond_Zopp s (if 0 <=? e then Zpos m * 2 ^ e else Zpos m / 2 ^ (- e)))
  | S754_infinity _ | S754_nan => None
  end.

(** Raised exceptions, by what the handlers of this program tell apart:
    [except RuntimeError] catches the first class, [except Exception] the
    first two, and neither catches the third (KeyboardInterrupt, SystemExit,
    asyncio.CancelledError). *)
Inductive exn :=
| RuntimeError (msg : string)
| OtherException (msg : string)
| NotException (msg : string).

Definition is_RuntimeError (e : exn) : bool :=
  match e with RuntimeError _ => true | _ => false end.

Definition is_Exception (e : exn) : bool :=
  match e with NotException _ => false | _ => true end.

(** [str(e)] *)
Definition str (e : exn) : string :=
  match e with RuntimeError m | OtherException m | NotException m => m end.

End Py.

(** ** geiger.py *)

Module Geiger.

Record GeigerConfig := {
  pin : Z;
  verbose : bool;
  mock : bool;
  mock_rate : float;
  max_deltas : Z;
  max_series : Z
}.

Definition default_config : GeigerConfig :=
  {| pin := 18; verbose := false; mock := false; mock_rate := 5%float;
     max_deltas := 2000; max_series := 3600 |}.

Record GeigerState := {
  cfg : GeigerConfig;
  t0 : float;
  total : Z;
  last_ts : option float;
  deltas : list float;
  per_second : list Z;
  _current_second_count : Z
}.

(** [GeigerState.reset] *)
Definition reset (self : GeigerState) (now : float) : GeigerState :=
  {| cfg := cfg self;
     t0 := now;
     total := 0;
     last_ts := None;
     deltas := [];
     per_second := [];
     _current_second_count := 0 |}.

(** [GeigerState.__init__]: stores the configuration and calls [reset]. *)
Definition init (c : GeigerConfig) (now : float) : GeigerState :=
  reset {| cfg := c; t0 := 0%float; total := 0; last_ts := None;
           deltas := []; per_second := []; _current_second_count := 0 |} now.

(** [GeigerState.on_pulse] *)
Definition on_pulse (self : GeigerState) (ts : float) : GeigerState :=
  let total := total self + 1 in
  let deltas :=
    match last_ts self with
    | Some last =>
        let dt := (ts - last)%float in
        if (0 <=? dt)%float then
          let deltas := deltas self ++ [dt] in
          if Z.of_nat (length deltas) >? max_deltas (cfg self)
          then Py.slice_from (- max_deltas (cfg self)) deltas
          else deltas
        else deltas self
    | None => deltas self
    end in
  {| cfg := cfg self;
     t0 := t0 self;
     total := total;
     last_ts := Some ts;
     deltas := deltas;
     per_second := per_second self;
     _current_second_count := _current_second_count self + 1 |}.

(** [GeigerState.tick_second] *)
Definition tick_second (self : GeigerState) : GeigerState :=
  let per_second := per_second self ++ [_current_second_count self] in
  {| cfg := cfg self;
     t0 := t0 self;
     total := total self;
     last_ts := last_ts self;
     deltas := deltas self;
     per_second :=
       if Z.of_nat (length per_second) >? max_series (cfg self)
       then Py.slice_from (- max_series (cfg self)) per_second
       else per_second;
     _current_second_count := 0 |}.

(** The dict returned by [snapshot], one field per key. *)
Record Snapshot := {
  snap_total : Z;
  snap_elapsed : float;
  snap_last_age : option float;
  snap_per_second : list Z;
  snap_running_mean : list float;
  snap_rate_bq : float;
  snap_rate_err : float;
  snap_deltas : list float
}.

(** The loop [for i, c in enumerate(series, start=1): s += c;
    running_mean.append(s / i)], from the state [(i, s, running_mean)]. *)
Fixpoint running_mean_loop (series : list Z) (i : positive) (s : Z)
    (running_mean : list float) : list float :=
  match series with
  | [] => running_mean
  | c :: series =>
      let s := s + c in
      running_mean_loop series (Pos.succ i) s (running_mean ++ [Py.int_truediv s i])
  end.

(** [GeigerState.snapshot] *)
Definition snapshot (self : GeigerState) (now : float) : Snapshot :=
  let elapsed := Py.max 0 (now - t0 self) in
  let '(rate, err) :=
    if (0 <? elapsed)%float then
      ((Py.float_of_int (total self) / elapsed)%float,
       if total self >? 0 then (Py.math_sqrt (total self) / elapsed)%float else 0%float)
    else (0%float, 0%float) in
  let running_mean := running_mean_loop (per_second self) 1 0 [] in
  let last_age :=
    match last_ts self with
    | Some last => if Py.truth last then Some (now - last)%float else None
    | None => None
    end in
  {| snap_total := total self;
     snap_elapsed := elapsed;
     snap_last_age := last_age;
     snap_per_second := per_second self;
     snap_running_mean := running_mean;
     snap_rate_bq := rate;
     snap_rate_err := err;
     snap_deltas := deltas self |}.

(** The calls that change the state, and a run of them. *)
Inductive Op :=
| OnPulse (ts : float)
| TickSecond
| Reset (now : float).

Definition step (self : GeigerState) (o : Op) : GeigerState :=
  match o with
  | OnPulse ts => on_pulse self ts
  | TickSecond => tick_second self
  | Reset now => reset self now
  end.

Definition run (self : GeigerState) (ops : list Op) : GeigerState :=
  foldl step self ops.

End Geiger.

(** ** geiger.py: GeigerReader.start *)

Module Reader.
Import Geiger.

(** What each call into RPi.GPIO does during one [start]: it returns
    ([None]) or raises. *)
Record GPIO := {
  cleanup : option Py.exn;
  setmode : option Py.exn;
  setup : option Py.exn;
  remove_event_detect : option Py.exn;
  add_event_detect : option Py.exn
}.

(** What [start] leaves behind, in program order. *)
Inductive Effect :=
| PrintMockOn (mock_rate : float)
| MockThreadStarted (mock_rate : float)
| EdgeDetectAdded (pin : Z)
| PrintEdgeDetectOn (pin : Z).

Record GeigerReader := {
  rcfg : GeigerConfig;
  _started : bool
}.

(** [GeigerReader._start_mock] *)
Definition _start_mock (self : GeigerReader) : list Effect :=
  (if verbose (rcfg self) then [PrintMockOn (mock_rate (rcfg self))] else [])
  ++ [MockThreadStarted (mock_rate (rcfg self))].

(** [try: call  except Exception: pass]: only what is not an Exception
    goes on. *)
Definition suppress (r : option Py.exn) : option Py.exn :=
  match r with
  | Some e => if Py.is_Exception e then None else Some e
  | None => None
  end.

(** [GeigerReader.start]: the exception that leaves the call, if any, the
    reader afterwards and the effects. *)
Definition start (gpio : GPIO) (self : GeigerReader)
    : option Py.exn * GeigerReader * list Effect :=
  if _started self then (None, self, [])
  else
    let self := {| rcfg := rcfg self; _started := true |} in
    if mock (rcfg self) then (None, self, _start_mock self)
    else
      match suppress (cleanup gpio) with
      | Some e => (Some e, self, [])
      | None =>
      match setmode gpio with
      | Some e => (Some e, self, [])
      | None =>
      match setup gpio with
      | Some e => (Some e, self, [])
      | None =>
      match suppress (remove_event_detect gpio) with
      | Some e => (Some e, self, [])
      | None =>
      match add_event_detect gpio with
      | Some e =>
          if Py.is_RuntimeError e
          then (Some (Py.RuntimeError
                        ("Failed to add edge detection on GPIO" +:+ pretty (pin (rcfg self)))),
                self, [])
          else (Some e, self, [])
      | None =>
          (None, self,
           EdgeDetectAdded (pin (rcfg self))
           :: (if verbose (rcfg self) then [PrintEdgeDetectOn (pin (rcfg self))] else []))
      end end end end end.

End Reader.

(** ** app.py *)

Module App.

(** The module-level settings read from the environment at import. *)
Record Settings := {
  PIN : Z;
  PULL_UP : bool;
  MOCK : bool;
  MOCK_RATE : float;
  MAX_DELTAS : Z;
  MAX_SERIES : Z
}.

Record GeigerState := {
  t0 : float;
  total : Z;
  last_ts : option float;
  timestamps : list float;
  deltas : list float;
  per_second : list Z;
  _current_second_count : Z
}.

(** [GeigerState.reset]; [__init__] is a [reset] of the new object. *)
Definition reset (now : float) : GeigerState :=
  {| t0 := now; total := 0; last_ts := None; timestamps := [];
     deltas := []; per_second := []; _current_second_count := 0 |}.

(** [GeigerState.on_pulse] *)
Definition on_pulse (g : Settings) (self : GeigerState) (ts : float) : GeigerState :=
  let total := total self + 1 in
  let deltas :=
    match last_ts self with
    | Some last =>
        let dt := (ts - last)%float in
        if (0 <=? dt)%float then
          let deltas := deltas self ++ [dt] in
          if Z.of_nat (length deltas) >? MAX_DELTAS g
          then Py.slice_from (- MAX_DELTAS g) deltas
          else deltas
        else deltas self
    | None => deltas self
    end in
  let timestamps := timestamps self ++ [ts] in
  {| t0 := t0 self;
     total := total;
     last_ts := Some ts;
     timestamps :=
       if Z.of_nat (length timestamps) >? MAX_DELTAS g * 2
       then Py.slice_from (- MAX_DELTAS g * 2) timestamps
       else timestamps;
     deltas := deltas;
     per_second := per_second self;
     _current_second_count := _current_second_count self + 1 |}.

(** [GeigerState.tick_second] *)
Definition tick_second (g : Settings) (self : GeigerState) : GeigerState :=
  let per_second := per_second self ++ [_current_second_count self] in
  {| t0 := t0 self;
     total := total self;
     last_ts := last_ts self;
     timestamps := timestamps self;
     deltas := deltas self;
     per_second :=
       if Z.of_nat (length per_second) >? MAX_SERIES g
       then Py.slice_from (- MAX_SERIES g) per_second
       else per_second;
     _current_second_count := 0 |}.

Record Snapshot := {
  snap_total : Z;
  snap_elapsed : float;
  snap_seconds : Z;
  snap_last_age : option float;
  snap_per_second : list Z;
  snap_running_mean : list float;
  snap_rate_bq : float;
  snap_rate_err : float;
  snap_deltas : list float
}.

(** [GeigerState.snapshot]; [None] when [int(elapsed)] raises. *)
Definition snapshot (self : GeigerState) (now : float) : option Snapshot :=
  let elapsed := Py.max 0 (now - t0 self) in
  match Py.int_of_float elapsed with
  | None => None
  | Some seconds =>
      let series := per_second self in
      let '(rate, err) :=
        if (0 <? elapsed)%float then
          ((Py.float_of_int (total self) / elapsed)%float,
           if total self >? 0 then (Py.math_sqrt (total self) / elapsed)%float else 0%float)
        else (0%float, 0%float) in
      let running_mean := Geiger.running_mean_loop series 1 0 [] in
      let last_age :=
        match last_ts self with
        | Some last => if Py.truth last then Some (now - last)%float else None
        | None => None
        end in
      Some {| snap_total := total self;
              snap_elapsed := elapsed;
              snap_seconds := seconds;
              snap_last_age := last_age;
              snap_per_second := series;
              snap_running_mean := running_mean;
              snap_rate_bq := rate;
              snap_rate_err := err;
              snap_deltas := deltas self |}
  end.

(** The calls that change the state, and a run of them. *)
Definition step (g : Settings) (self : GeigerState) (o : Geiger.Op) : GeigerState :=
  match o with
  | Geiger.OnPulse ts => on_pulse g self ts
  | Geiger.TickSecond => tick_second g self
  | Geiger.Reset now => reset now
  end.

Definition run (g : Settings) (self : GeigerState) (ops : list Geiger.Op) : GeigerState :=
  foldl (step g) self ops.

(** The state of geiger.py's class that an app.py state carries. *)
Definition to_geiger (c : Geiger.GeigerConfig) (self : GeigerState) : Geiger.GeigerState :=
  {| Geiger.cfg := c;
     Geiger.t0 := t0 self;
     Geiger.total := total self;
     Geiger.last_ts := last_ts self;
     Geiger.deltas := deltas self;
     Geiger.per_second := per_second self;
     Geiger._current_second_count := _current_second_count self |}.

Definition config_of (g : Settings) : Geiger.GeigerConfig :=
  {| Geiger.pin := PIN g; Geiger.verbose := false; Geiger.mock := MOCK g;
     Geiger.mock_rate := MOCK_RATE g;
     Geiger.max_deltas := MAX_DELTAS g; Geiger.max_series := MAX_SERIES g |}.

(** What each fallible step inside the [try] of [start_geiger_reader] does:
    the two imports, the two constructors and the assignment of the
    handler. *)
Record Gpiozero := {
  import_gpiozero : option Py.exn;
  import_lgpio : option Py.exn;
  LGPIOFactory : option Py.exn;
  DigitalInputDevice : option Py.exn;
  set_handler : option Py.exn
}.

Inductive Effect :=
| MockThreadStarted (mock_rate : float)
| WhenActivated (pin : Z)
| WhenDeactivated (pin : Z)
| Printed (line : string)
| EnvironSet (key value : string).

(** The body of the [try], up to the first step that raises. *)
Definition acquire (g : Settings) (hw : Gpiozero) : Py.exn + list Effect :=
  match import_gpiozero hw with
  | Some e => inl e
  | None =>
  match import_lgpio hw with
  | Some e => inl e
  | None =>
  match LGPIOFactory hw with
  | Some e => inl e
  | None =>
  match DigitalInputDevice hw with
  | Some e => inl e
  | None =>
  match set_handler hw with
  | Some e => inl e
  | None => inr [if negb (PULL_UP g) then WhenActivated (PIN g) else WhenDeactivated (PIN g)]
  end end end end end.

(** [start_geiger_reader] *)
Definition start_geiger_reader (g : Settings) (hw : Gpiozero)
    : option Py.exn * list Effect :=
  if MOCK g then (None, [MockThreadStarted (MOCK_RATE g)])
  else
    match acquire g hw with
    | inr effects => (None, effects)
    | inl e =>
        if Py.is_Exception e then
          (None,
           [Printed "WARNING: No se pudo iniciar GPIO real. Activando mock.";
            Printed ("Detalle: " +:+ Py.str e);
            EnvironSet "GEIGER_MOCK" "1";
            MockThreadStarted (MOCK_RATE g)])
        else (Some e, [])
    end.

End App.

(** ** app.py and main.py: WSManager (the two copies are the same) *)

Module WS.

(** A WebSocket object is known by its identity. *)
Definition WebSocket := positive.

Record WSManager := { clients : gset WebSocket }.

(** [WSManager.disconnect] *)
Definition disconnect (self : WSManager) (ws : WebSocket) : WSManager :=
  {| clients := clients self ∖ {[ ws ]} |}.

Section Broadcast.
Context {Msg Net : Type}.

(** [await ws.send_json(message)] against the network: it returns
    ([None]) or raises, and leaves the network in a new state. *)
Variable send_json : WebSocket -> Msg -> Net -> option Py.exn * Net.

(** [WSManager.connect]: [await ws.accept()], which raises or returns, then
    [self.clients.add(ws)]. *)
Variable accept : WebSocket -> Net -> option Py.exn * Net.

Definition connect (self : WSManager) (ws : WebSocket) (net : Net)
    : option Py.exn * WSManager * Net :=
  match accept ws net with
  | (Some e, net) => (Some e, self, net)
  | (None, net) => (None, {| clients := clients self ∪ {[ ws ]} |}, net)
  end.

(** The loop [for ws in clients: try: await ws.send_json(message)
    except Exception: dead.append(ws)] from the state [(dead, net)].
    [sends] records each call of [send_json] with what it did; an
    exception that is not an Exception ends the loop and leaves it. *)
Fixpoint deliver (clients : list WebSocket) (message : Msg)
    (dead : list WebSocket) (net : Net) (sends : list (WebSocket * option Py.exn))
    : option Py.exn * list WebSocket * Net * list (WebSocket * option Py.exn) :=
  match clients with
  | [] => (None, dead, net, sends)
  | ws :: clients =>
      match send_json ws message net with
      | (None, net) => deliver clients message dead net (sends ++ [(ws, None)])
      | (Some e, net) =>
          if Py.is_Exception e
          then deliver clients message (dead ++ [ws]) net (sends ++ [(ws, Some e)])
          else (Some e, dead, net, sends ++ [(ws, Some e)])
      end
  end.

(** [if dead: for ws in dead: self.clients.discard(ws)] *)
Definition prune (self : WSManager) (dead : list WebSocket) : WSManager :=
  match dead with
  | [] => self
  | _ => {| clients := foldl (fun s ws => s ∖ {[ ws ]}) (clients self) dead |}
  end.

(** [WSManager.broadcast], when nothing else touches the registry between
    its two critical sections. *)
Definition broadcast (self : WSManager) (message : Msg) (net : Net)
    : option Py.exn * WSManager * Net * list (WebSocket * option Py.exn) :=
  let clients := elements (clients self) in
  match deliver clients message [] net [] with
  | (Some e, _, net, sends) => (Some e, self, net, sends)
  | (None, dead, net, sends) => (None, prune self dead, net, sends)
  end.

End Broadcast.

End WS.

(** ** geiger.py: the rest of GeigerReader *)

Module Source.

(** [lam = max(0.0001, mock_rate)], the rate that the mock loops of geiger.py
    and of app.py hand to [random.expovariate]. *)
Definition mock_lambda (mock_rate : float) : float :=
  Py.max 0x1.a36e2eb1c432dp-14 mock_rate.

Section Reader.
(** The callbacks that [set_callback] can be given. *)
Context {Callback : Type}.

(** The object: [cfg] and [_started] as in [Reader.GeigerReader], the
    callback, whether the [_stop] event is set, and whether [_mock_thread]
    holds a thread. *)
Record GeigerReader := {
  core : Reader.GeigerReader;
  _on_pulse : option Callback;
  _stop : bool;
  _mock_thread : bool
}.

(** [GeigerReader.__init__] *)
Definition init (cfg : Geiger.GeigerConfig) : GeigerReader :=
  {| core := {| Reader.rcfg := cfg; Reader._started := false |};
     _on_pulse := None; _stop := false; _mock_thread := false |}.

(** [GeigerReader.set_callback] *)
Definition set_callback (self : GeigerReader) (cb : Callback) : GeigerReader :=
  {| core := core self; _on_pulse := Some cb;
     _stop := _stop self; _mock_thread := _mock_thread self |}.

(** What [_emit] does: the call of the callback, then the line it prints. *)
Inductive Emitted :=
| Called (cb : Callback) (ts : float)
| PrintedPulse (ts : float).

(** [GeigerReader._emit], at the clock reading [ts]. *)
Definition _emit (self : GeigerReader) (ts : float) : list Emitted :=
  (match _on_pulse self with Some cb => [Called cb ts] | None => [] end)
  ++ (if Geiger.verbose (Reader.rcfg (core self)) then [PrintedPulse ts] else []).

(** [GeigerReader.start] on the whole object: [_start_mock] stores the thread
    it starts. *)
Definition start (gpio : Reader.GPIO) (self : GeigerReader)
    : option Py.exn * GeigerReader * list Reader.Effect :=
  let '(raised, core', effects) := Reader.start gpio (core self) in
  (raised,
   {| core := core';
      _on_pulse := _on_pulse self;
      _stop := _stop self;
      _mock_thread :=
        if negb (Reader._started (core self)) && Geiger.mock (Reader.rcfg (core self))
        then true else _mock_thread self |},
   effects).

(** [GeigerReader.stop]; [gpio] tells what the two calls into RPi.GPIO do
    this time. *)
Definition stop (gpio : Reader.GPIO) (self : GeigerReader) : option Py.exn * GeigerReader :=
  let self := {| core := core self; _on_pulse := _on_pulse self;
                 _stop := true; _mock_thread := _mock_thread self |} in
  match Reader.suppress (Reader.remove_event_detect gpio) with
  | Some e => (Some e, self)
  | None =>
      match Reader.suppress (Reader.cleanup gpio) with
      | Some e => (Some e, self)
      | None => (None, self)
      end
  end.

End Reader.

End Source.

(** ** main.py: the glue between the reader, the state and the hub *)

Module Main.

(** The dicts that are broadcast. *)
Inductive Message :=
| Pulse (ts : float)
| SnapshotMessage (snap : Geiger.Snapshot)
| ResetAck.

(** The callback that main.py registers. *)
Inductive Callback := on_pulse_callback.

(** The module-level objects that the threads share: [state], and
    [MAIN_LOOP], which is [None] or the loop with the messages whose
    broadcast has been submitted to it. *)
Record Process := {
  state : Geiger.GeigerState;
  MAIN_LOOP : option (list Message)
}.

(** [schedule_broadcast]; [submit] tells what
    [asyncio.run_coroutine_threadsafe] does this time: it returns or
    raises. *)
Definition schedule_broadcast (submit : option Py.exn) (p : Process) (msg : Message)
    : option Py.exn * Process :=
  match MAIN_LOOP p with
  | None => (None, p)
  | Some submitted =>
      match submit with
      | None => (None, {| state := state p; MAIN_LOOP := Some (submitted ++ [msg]) |})
      | Some e => if Py.is_Exception e then (None, p) else (Some e, p)
      end
  end.

(** [on_pulse], the callback of the reader. *)
Definition on_pulse (submit : option Py.exn) (p : Process) (ts : float)
    : option Py.exn * Process :=
  let p := {| state := Geiger.on_pulse (state p) ts; MAIN_LOOP := MAIN_LOOP p |} in
  schedule_broadcast submit p (Pulse ts).

(** [api_reset], at the clock reading [now]: what is raised instead of the
    response [{"ok": True}], the objects afterwards and the lines printed. *)
Definition api_reset (submit : option Py.exn) (p : Process) (now : float)
    : option Py.exn * Process * list string :=
  let p := {| state := Geiger.reset (state p) now; MAIN_LOOP := MAIN_LOOP p |} in
  match schedule_broadcast submit p ResetAck with
  | (Some e, p) => (Some e, p, [])
  | (None, p) =>
      (None, p,
       if Geiger.verbose (Geiger.cfg (state p)) then ["[APP] RESET via API"] else [])
  end.

(** [api_snapshot] *)
Definition api_snapshot (p : Process) (now : float) : Geiger.Snapshot :=
  Geiger.snapshot (state p) now.

Section Loop.
Context {Net : Type}.
Variable send_json : WS.WebSocket -> Message -> Net -> option Py.exn * Net.
Variable accept : WS.WebSocket -> Net -> option Py.exn * Net.

(** One turn of [second_loop], after its sleep: [tick_second], then the
    broadcast of the snapshot taken at the clock reading [now]. *)
Definition second_loop_turn (p : Process) (manager : WS.WSManager) (net : Net) (now : float)
    : option Py.exn * Process * WS.WSManager * Net * list (WS.WebSocket * option Py.exn) :=
  let p := {| state := Geiger.tick_second (state p); MAIN_LOOP := MAIN_LOOP p |} in
  let '(raised, manager, net, sends) :=
    WS.broadcast send_json manager (SnapshotMessage (Geiger.snapshot (state p) now)) net in
  (raised, p, manager, net, sends).

(** What leaves the [try] of [ws_endpoint]: a WebSocketDisconnect, which its
    handler catches, or any other exception. *)
Inductive Interrupt :=
| WebSocketDisconnect
| Raised (e : Py.exn).

(** [ws_endpoint]: [connect], then under [try] the snapshot for this socket
    and the wait; [except WebSocketDisconnect: pass]; [finally] the
    [disconnect]. [first_send] is what [ws.send_json] does with the snapshot:
    it returns or raises. The wait [while True: await asyncio.sleep(3600)]
    has no exit of its own: [interrupt] is what is raised into it. *)
Definition ws_endpoint
    (first_send : WS.WebSocket -> Message -> Net -> option Interrupt * Net)
    (p : Process) (manager : WS.WSManager) (ws : WS.WebSocket)
    (net : Net) (now : float) (interrupt : Interrupt)
    : option Py.exn * WS.WSManager * Net :=
  match WS.connect accept manager ws net with
  | (Some e, manager, net) => (Some e, manager, net)
  | (None, manager, net) =>
      let '(sent, net) :=
        first_send ws (SnapshotMessage (Geiger.snapshot (state p) now)) net in
      let ended :=
        match sent with
        | Some i => i
        | None => interrupt
        end in
      let manager := WS.disconnect manager ws in
      match ended with
      | WebSocketDisconnect => (None, manager, net)
      | Raised e => (Some e, manager, net)
      end
  end.

End Loop.

(** What [on_startup] leaves behind besides the objects. *)
Inductive Started :=
| PrintedStartup
| FromReader (effect : Reader.Effect)
| SecondLoopCreated.

(** [on_startup]: it stores the running loop, registers the callback, starts
    the reader and creates the task of [second_loop]. *)
Definition on_startup (gpio : Reader.GPIO) (p : Process)
    (reader : Source.GeigerReader (Callback := Callback))
    : option Py.exn * Process * Source.GeigerReader (Callback := Callback) * list Started :=
  let p := {| state := state p; MAIN_LOOP := Some [] |} in
  let printed :=
    if Geiger.verbose (Geiger.cfg (state p)) then [PrintedStartup] else [] in
  let reader := Source.set_callback reader on_pulse_callback in
  match Source.start gpio reader with
  | (Some e, reader, effects) => (Some e, p, reader, printed ++ map FromReader effects)
  | (None, reader, effects) =>
      (None, p, reader, printed ++ map FromReader effects ++ [SecondLoopCreated])
  end.

(** [on_shutdown] *)
Definition on_shutdown (gpio : Reader.GPIO) (p : Process)
    (reader : Source.GeigerReader (Callback := Callback))
    : option Py.exn * Source.GeigerReader (Callback := Callback) * list string :=
  match Source.stop gpio reader with
  | (Some e, reader) => (Some e, reader, [])
  | (None, reader) =>
      (None, reader, if Geiger.verbose (Geiger.cfg (state p)) then ["[APP] shutdown"] else [])
  end.

End Main.

(** ** app.py: its startup *)

Module AppMain.

Inductive Started :=
| FromReader (effect : App.Effect)
| SecondLoopCreated.

(** The module-level objects of app.py. *)
Record Process := {
  state : App.GeigerState;
  MAIN_LOOP : option (list Main.Message)
}.

(** [on_startup] of app.py: it stores the running loop, starts the pulse
    source and creates the task of [second_loop]. *)
Definition on_startup (g : App.Settings) (hw : App.Gpiozero) (p : Process)
    : option Py.exn * Process * list Started :=
  let p := {| state := state p; MAIN_LOOP := Some [] |} in
  match App.start_geiger_reader g hw with
  | (Some e, effects) => (Some e, p, map FromReader effects)
  | (None, effects) => (None, p, map FromReader effects ++ [SecondLoopCreated])
  end.

End AppMain.

(** ** Vocabulary of the properties *)

(** The last [n] entries of [l]. *)
Definition newest {A : Type} (n : nat) (l : list A) : list A :=
  drop (length l - n) l.

(** The idiom of both buffers: after an append, a list longer than [cap] is
    replaced by its slice [l[-cap:]]. *)
Definition trimmed {A : Type} (cap : Z) (l : list A) : list A :=
  if Z.of_nat (length l) >? cap then Py.slice_from (- cap) l else l.

(** Both buffers are within their capacities. *)
Definition within_capacity (s : Geiger.GeigerState) : Prop :=
  Z.of_nat (length (Geiger.deltas s)) <= Geiger.max_deltas (Geiger.cfg s) /\
  Z.of_nat (length (Geiger.per_second s)) <= Geiger.max_series (Geiger.cfg s).

(** Each timestamp compares [<=] with the next one. *)
Fixpoint nondecreasing (tss : list float) : bool :=
  match tss with
  | a :: (b :: _) as rest => (a <=? b)%float && nondecreasing rest
  | _ => true
  end.

Definition sumZ (l : list Z) : Z := foldr Z.add 0 l.

(** The running mean without its accumulator: the means of the prefixes of
    [series], after [i - 1] earlier entries that sum to [s]. *)
Fixpoint prefix_means (series : list Z) (i : positive) (s : Z) : list float :=
  match series with
  | [] => []
  | c :: series => Py.int_truediv (s + c) i :: prefix_means series (Pos.succ i) (s + c)
  end.



(** The default configuration with other capacities. *)
Definition with_capacities (d s : Z) : Geiger.GeigerConfig :=
  {| Geiger.pin := 18; Geiger.verbose := false; Geiger.mock := false;
     Geiger.mock_rate := 5%float; Geiger.max_deltas := d; Geiger.max_series := s |}.

(** The sockets whose [send_json] raised in a round. *)
Definition failed (sends : list (WS.WebSocket * option Py.exn)) : list WS.WebSocket :=
  omap (fun '(ws, r) => match r with Some _ => Some ws | None => None end) sends.

(** A network for examples: the socket [broken] refuses every message, the
    others store theirs in an inbox. *)
Definition refusing (broken : WS.WebSocket) (ws : WS.WebSocket) (message : string)
    (inbox : list (WS.WebSocket * string)) : option Py.exn * list (WS.WebSocket * string) :=
  if decide (ws = broken)
  then (Some (Py.OtherException "connection closed"), inbox)
  else (None, inbox ++ [(ws, message)]).

(** Another network for examples: a send on the socket [closed] raises the
    RuntimeError of a connection that is closed already. *)
Definition hung_up (closed : WS.WebSocket) (ws : WS.WebSocket) (message : string)
    (inbox : list (WS.WebSocket * string)) : option Py.exn * list (WS.WebSocket * string) :=
  if decide (ws = closed)
  then (Some (Py.RuntimeError "Cannot call send once a close message has been sent"), inbox)
  else (None, inbox ++ [(ws, message)]).

(** Hardware for examples. On [gpio_busy] the edge detection cannot be
    registered; on [gpiozero_missing] the first import fails. *)
Definition gpio_busy : Reader.GPIO :=
  {| Reader.cleanup := None;
     Reader.setmode := None;
     Reader.setup := None;
     Reader.remove_event_detect := None;
     Reader.add_event_detect := Some (Py.RuntimeError "Failed to add edge detection") |}.

Definition gpiozero_missing : App.Gpiozero :=
  {| App.import_gpiozero := Some (Py.OtherException "No module named gpiozero");
     App.import_lgpio := None;
     App.LGPIOFactory := None;
     App.DigitalInputDevice := None;
     App.set_handler := None |}.

Definition default_settings : App.Settings :=
  {| App.PIN := 18; App.PULL_UP := false; App.MOCK := false; App.MOCK_RATE := 5%float;
     App.MAX_DELTAS := 2000; App.MAX_SERIES := 3600 |}.

(** A spec float that is a number: a zero or a finite value. *)
Definition finite_spec (x : spec_float) : Prop :=
  match x with S754_zero _ | S754_finite _ _ _ => True | _ => False end.

(** Rounding a nonzero magnitude at or above the smallest exponent never gives
    a zero: the result keeps the sign. *)
Definition has_sign (s : bool) (x : spec_float) : Prop :=
  match x with
  | S754_finite s' _ _ | S754_infinity s' => s' = s
  | _ => False
  end.

(** The exact difference of two finite numbers, as [SFsub] forms it before it
    rounds: an integer multiple of [2 ^ Z.min ex ey]. *)
Definition exact_diff (sx : bool) (mx : positive) (ex : Z)
    (sy : bool) (my : positive) (ey : Z) : Z :=
  cond_Zopp sx (Zpos (shl_align mx ex (Z.min ex ey)).1)
  - cond_Zopp sy (Zpos (shl_align my ey (Z.min ex ey)).1).

(** The timestamps of the pulses since the last [reset], in order. *)
Definition history_step (h : list float) (o : Geiger.Op) : list float :=
  match o with
  | Geiger.OnPulse ts => h ++ [ts]
  | Geiger.TickSecond => h
  | Geiger.Reset _ => []
  end.

Definition pulses_since_reset (ops : list Geiger.Op) : list float :=
  foldl history_step [] ops.

(** The differences of consecutive timestamps. *)
Fixpoint diffs (tss : list float) : list float :=
  match tss with
  | a :: (b :: _) as rest => (b - a)%float :: diffs rest
  | _ => []
  end.

(** The test [dt >= 0]. *)
Definition nonneg (d : float) : bool := (0 <=? d)%float.

(** The pulses counted second by second since the last [reset], without any
    capacity: the counts of the closed seconds, and the count of the open
    one. *)
Definition bin_step (b : list Z * Z) (o : Geiger.Op) : list Z * Z :=
  match o with
  | Geiger.OnPulse _ => (b.1, b.2 + 1)
  | Geiger.TickSecond => (b.1 ++ [b.2], 0)
  | Geiger.Reset _ => ([], 0)
  end.

Definition bins (ops : list Geiger.Op) : list Z * Z := foldl bin_step ([], 0) ops.

(** The effects of a start that install a pulse source. *)
Definition is_source (e : Reader.Effect) : bool :=
  match e with
  | Reader.MockThreadStarted _ | Reader.EdgeDetectAdded _ => true
  | _ => false
  end.

Definition is_app_source (e : AppMain.Started) : bool :=
  match e with
  | AppMain.FromReader (App.MockThreadStarted _)
  | AppMain.FromReader (App.WhenActivated _)
  | AppMain.FromReader (App.WhenDeactivated _) => true
  | _ => false
  end.

(** ** The arithmetic on small examples *)

Example int_truediv_third : Py.int_truediv 1 3 = (1 / 3)%float.
Proof. reflexivity. Qed.

Example int_truediv_large : Py.int_truediv (2 ^ 2000) (2 ^ 1990) = 1024%float.
Proof. reflexivity. Qed.

Example float_of_int_tie : Py.float_of_int (2 ^ 53 + 1) = Py.float_of_int (2 ^ 53).
Proof. reflexivity. Qed.

Example slice_from_examples :
  Py.slice_from (-2) [1; 2; 3] = [2; 3] /\ Py.slice_from (-0) [1; 2; 3] = [1; 2; 3] /\
  Py.slice_from (-5) [1; 2; 3] = [1; 2; 3] /\ Py.slice_from 1 [1; 2; 3] = [2; 3].
Proof. by vm_compute. Qed.

(** ** Slices and bounded buffers *)

Section Slices.
Context {A : Type}.
Implicit Types l : list A.

Lemma slice_from_zero l : Py.slice_from 0 l = l.
Proof.
  unfold Py.slice_from. simpl.
  replace (Z.to_nat (Z.min 0 (Z.of_nat (length l)))) with 0%nat by lia.
  apply drop_0.
Qed.

Lemma slice_from_neg l (n : Z) :
  0 < n -> Py.slice_from (- n) l = newest (Z.to_nat n) l.
Proof.
  intros Hn. unfold Py.slice_from, newest.
  destruct (Z.ltb_spec (- n) 0) as [_|]; [|lia].
  f_equal. lia.
Qed.

Lemma slice_from_suffix l (start : Z) : Py.slice_from start l `suffix_of` l.
Proof. unfold Py.slice_from. apply suffix_drop. Qed.

Lemma newest_length l (n : nat) : length (newest n l) = Nat.min n (length l).
Proof. unfold newest. rewrite length_drop. lia. Qed.

Lemma newest_all l (n : nat) : (length l <= n)%nat -> newest n l = l.
Proof.
  intros H. unfold newest. replace (length l - n)%nat with 0%nat by lia. apply drop_0.
Qed.

Lemma newest_last l (n : nat) x :
  (0 < n)%nat -> last (newest n (l ++ [x])) = Some x.
Proof.
  intros Hn. unfold newest. set (k := (length (l ++ [x]) - n)%nat).
  assert (H : last (take k (l ++ [x]) ++ drop k (l ++ [x])) = Some x)
    by (rewrite take_drop; apply last_snoc).
  rewrite last_app in H.
  destruct (last (drop k (l ++ [x]))) eqn:E; [done|].
  apply last_None in E. apply (f_equal length) in E.
  subst k. rewrite length_drop, length_app in E. simpl in E. lia.
Qed.

Lemma trimmed_newest (cap : Z) l :
  1 <= cap -> trimmed cap l = newest (Z.to_nat cap) l.
Proof.
  intros Hc. unfold trimmed.
  destruct (Z.gtb_spec (Z.of_nat (length l)) cap).
  - apply slice_from_neg. lia.
  - symmetry. apply newest_all. lia.
Qed.

Lemma trimmed_length (cap : Z) l :
  1 <= cap -> Z.of_nat (length (trimmed cap l)) = Z.min (Z.of_nat (length l)) cap.
Proof.
  intros Hc. rewrite trimmed_newest, newest_length by done. lia.
Qed.

Lemma trimmed_suffix (cap : Z) l : trimmed cap l `suffix_of` l.
Proof.
  unfold trimmed. destruct (_ >? _); [apply slice_from_suffix|done].
Qed.

Lemma trimmed_fits (cap : Z) l :
  Z.of_nat (length l) <= cap -> trimmed cap l = l.
Proof.
  intros H. unfold trimmed. destruct (Z.gtb_spec (Z.of_nat (length l)) cap); [lia|done].
Qed.

Lemma trimmed_zero l : trimmed 0 l = l.
Proof. unfold trimmed. destruct (_ >? _); [apply slice_from_zero|done]. Qed.

End Slices.

(** ** Binary64: the sign of a difference

    [on_pulse] tests [ts - last_ts >= 0] where the properties speak of
    [ts >= last_ts]. The two agree on finite floats: a difference of two
    finite binary64 numbers is a multiple of the smallest subnormal, so it
    rounds to zero only when it is zero. *)

Section Binary64.

Lemma digits2_pos_bounds (p : positive) :
  2 ^ (Zpos (digits2_pos p) - 1) <= Zpos p < 2 ^ Zpos (digits2_pos p).
Proof.
  induction p as [p IH|p IH|]; simpl digits2_pos; [| |simpl; lia].
  all: rewrite Pos2Z.inj_succ;
    replace (Z.succ (Zpos (digits2_pos p)) - 1) with (Z.succ (Zpos (digits2_pos p) - 1)) by lia;
    rewrite !Z.pow_succ_r by lia; lia.
Qed.

Lemma shr_m_shr_1 (r : shr_record) :
  0 <= shr_m r -> shr_m (shr_1 r) = shr_m r / 2.
Proof.
  destruct r as [m b c]. simpl. intros Hm.
  destruct m as [|[p|p|]|p]; simpl shr_m; try lia; try done.
  - apply (Z.div_unique _ 2 _ 1); lia.
  - apply (Z.div_unique _ 2 _ 0); lia.
Qed.

Lemma shr_m_iter_pos (p : positive) (r : shr_record) :
  0 <= shr_m r -> shr_m (SpecFloat.iter_pos shr_1 p r) = shr_m r / 2 ^ Zpos p.
Proof.
  revert r. induction p as [p IH|p IH|]; intros r Hr; simpl SpecFloat.iter_pos.
  - assert (H1 : 0 <= shr_m (shr_1 r)) by (rewrite shr_m_shr_1 by done; apply Z.div_pos; lia).
    assert (H2 : 0 <= shr_m (SpecFloat.iter_pos shr_1 p (shr_1 r)))
      by (rewrite IH by done; apply Z.div_pos; lia).
    rewrite !IH, shr_m_shr_1 by done.
    rewrite !Z.div_div by lia. f_equal.
    replace (Zpos p~1) with (1 + Zpos p + Zpos p) by lia.
    rewrite !Z.pow_add_r by lia. lia.
  - assert (H2 : 0 <= shr_m (SpecFloat.iter_pos shr_1 p r))
      by (rewrite IH by done; apply Z.div_pos; lia).
    rewrite !IH by done.
    rewrite !Z.div_div by lia. f_equal.
    replace (Zpos p~0) with (Zpos p + Zpos p) by lia.
    rewrite !Z.pow_add_r by lia. lia.
  - by rewrite shr_m_shr_1.
Qed.

Lemma shr_m_record_of_loc (m : Z) (l : location) : shr_m (shr_record_of_loc m l) = m.
Proof. by destruct l as [|[]]. Qed.

Lemma shr_fexp_positive (m e : Z) (l : location) :
  0 < m -> emin <= e ->
  0 < shr_m (shr_fexp prec emax m e l).1 /\ e <= (shr_fexp prec emax m e l).2.
Proof.
  intros Hm He. destruct m as [|p|p]; try lia.
  unfold shr_fexp, shr. simpl Zdigits2.
  pose proof (digits2_pos_bounds p) as [Hlo _].
  set (d := Zpos (digits2_pos p)) in *.
  assert (Hn : fexp prec emax (d + e) - e <= d - 1).
  { unfold fexp, SpecFloat.emin, prec, emax in *. lia. }
  destruct (fexp prec emax (d + e) - e) as [|n|n] eqn:En; simpl;
    rewrite ?shr_m_record_of_loc; try lia.
  rewrite shr_m_iter_pos by (rewrite shr_m_record_of_loc; lia).
  rewrite shr_m_record_of_loc. split; [|lia].
  apply Z.div_str_pos. split; [lia|].
  etrans; [|exact Hlo]. apply Z.pow_le_mono_r; lia.
Qed.

Lemma round_nearest_even_positive (m : Z) (l : location) :
  0 < m -> 0 < round_nearest_even m l.
Proof. intros. destruct l as [|[]]; simpl; try lia. destruct (Z.even m); lia. Qed.

Lemma binary_round_aux_sign (s : bool) (m e : Z) (l : location) :
  0 < m -> emin <= e -> has_sign s (binary_round_aux prec emax s m e l).
Proof.
  intros Hm He. unfold binary_round_aux.
  pose proof (shr_fexp_positive m e l Hm He) as [H1 H1'].
  destruct (shr_fexp prec emax m e l) as [r1 e1]. simpl in H1, H1'.
  pose proof (shr_fexp_positive _ e1 loc_Exact
    (round_nearest_even_positive _ (loc_of_shr_record r1) H1) ltac:(lia)) as [H2 _].
  destruct (shr_fexp prec emax _ e1 loc_Exact) as [r2 e2]. simpl in H2.
  destruct (shr_m r2); try lia.
  by destruct (_ <=? _).
Qed.

Lemma binary_round_sign (s : bool) (m : positive) (e : Z) :
  emin <= e -> has_sign s (binary_round prec emax s m e).
Proof.
  intros He. unfold binary_round.
  destruct (shl_align m e _) as [mz ez] eqn:E.
  apply binary_round_aux_sign; [lia|].
  unfold shl_align in E.
  destruct (_ - e) eqn:E'; inversion E; subst; try lia.
  unfold fexp, SpecFloat.emin, prec, emax in *. lia.
Qed.

Lemma binary_normalize_compare (D e : Z) :
  emin <= e ->
  SFcompare (S754_zero false) (binary_normalize prec emax D e false) = Some (0 ?= D).
Proof.
  intros He. destruct D as [|p|p]; simpl binary_normalize; [done| |].
  - pose proof (binary_round_sign false p e He) as H.
    destruct (binary_round prec emax false p e) as [| | |s m e']; simpl in H; try done;
      by subst.
  - pose proof (binary_round_sign true p e He) as H.
    destruct (binary_round prec emax true p e) as [| | |s m e']; simpl in H; try done;
      by subst.
Qed.

Lemma Zpos_iter_xO (m d : positive) : Zpos (Pos.iter xO m d) = Zpos m * 2 ^ Zpos d.
Proof.
  induction d as [|d IH] using Pos.peano_ind.
  - simpl. lia.
  - rewrite Pos.iter_succ, Pos2Z.inj_xO, IH, Pos2Z.inj_succ, Z.pow_succ_r by lia. lia.
Qed.

Lemma shl_align_fst (m : positive) (e e' : Z) :
  e' <= e -> Zpos (shl_align m e e').1 = Zpos m * 2 ^ (e - e').
Proof.
  intros He. unfold shl_align.
  destruct (e' - e) as [|d|d] eqn:E; simpl; try lia.
  - replace (e - e') with 0 by lia. lia.
  - rewrite Zpos_iter_xO. f_equal. f_equal. lia.
Qed.

Lemma bounded_inv (m : positive) (e : Z) :
  bounded prec emax m e = true ->
  emin <= e /\ Zpos m < 2 ^ 53 /\ (emin < e -> 2 ^ 52 <= Zpos m).
Proof.
  unfold bounded, canonical_mantissa. intros [Hc _]%andb_prop.
  apply Z.eqb_eq in Hc.
  pose proof (digits2_pos_bounds m) as [Hlo Hhi].
  set (d := Zpos (digits2_pos m)) in *.
  unfold fexp, SpecFloat.emin, prec, emax in *.
  assert (Hd : d <= 53) by lia.
  split; [lia|]. split.
  - eapply Z.lt_le_trans; [exact Hhi|]. apply Z.pow_le_mono_r; lia.
  - intros Hgt. assert (d = 53) as -> by lia. exact Hlo.
Qed.

Lemma Zcompare_0_sub (a b : Z) : (0 ?= a - b) = (b ?= a).
Proof.
  destruct (Z.compare_spec b a);
    [apply Z.compare_eq_iff|apply Z.compare_lt_iff|apply Z.compare_gt_iff]; lia.
Qed.

Lemma SFcompare_exact_diff sx mx ex sy my ey :
  bounded prec emax mx ex = true -> bounded prec emax my ey = true ->
  SFcompare (S754_finite sy my ey) (S754_finite sx mx ex)
  = Some (0 ?= exact_diff sx mx ex sy my ey).
Proof.
  intros (Hex & Hmx & Hnx)%bounded_inv (Hey & Hmy & Hny)%bounded_inv.
  unfold exact_diff. rewrite !shl_align_fst by lia.
  change (2 ^ 53) with 9007199254740992 in *.
  change (2 ^ 52) with 4503599627370496 in *.
  simpl SFcompare. f_equal.
  destruct (Z.compare_spec ey ex) as [->|Hlt|Hgt].
  - rewrite Z.min_id, Z.sub_diag, Z.pow_0_r, !Z.mul_1_r.
    change (PosDef.Pos.compare_cont Eq my mx) with (Zpos my ?= Zpos mx).
    destruct sx, sy; simpl cond_Zopp.
    + rewrite <- Z.compare_antisym.
      replace (- Zpos mx - - Zpos my) with (Zpos my - Zpos mx) by lia.
      by rewrite Zcompare_0_sub.
    + symmetry. apply Z.compare_gt_iff. lia.
    + symmetry. apply Z.compare_lt_iff. lia.
    + by rewrite Zcompare_0_sub.
  - rewrite Z.min_r by lia. rewrite Z.sub_diag, Z.pow_0_r, Z.mul_1_r.
    assert (Hp : 2 <= 2 ^ (ex - ey)).
    { change 2 with (2 ^ 1) at 1. apply Z.pow_le_mono_r; lia. }
    specialize (Hnx ltac:(lia)).
    destruct sx, sy; simpl cond_Zopp;
      symmetry; first [apply Z.compare_lt_iff; nia|apply Z.compare_gt_iff; nia].
  - rewrite Z.min_l by lia. rewrite Z.sub_diag, Z.pow_0_r, Z.mul_1_r.
    assert (Hp : 2 <= 2 ^ (ey - ex)).
    { change 2 with (2 ^ 1) at 1. apply Z.pow_le_mono_r; lia. }
    specialize (Hny ltac:(lia)).
    destruct sx, sy; simpl cond_Zopp;
      symmetry; first [apply Z.compare_lt_iff; nia|apply Z.compare_gt_iff; nia].
Qed.

Lemma SFsub_compare (x y : spec_float) :
  valid_binary x = true -> valid_binary y = true ->
  finite_spec x -> finite_spec y ->
  SFcompare (S754_zero false) (SF64sub x y) = SFcompare y x.
Proof.
  intros Vx Vy Fx Fy.
  destruct x as [sx| | |sx mx ex], y as [sy| | |sy my ey]; simpl in Fx, Fy; try done.
  - by destruct sx, sy.
  - by destruct sy.
  - simpl in Vx, Vy.
    rewrite SFcompare_exact_diff by done.
    unfold SF64sub, SFsub. apply binary_normalize_compare.
    apply bounded_inv in Vx, Vy. lia.
Qed.

Lemma is_finite_spec (x : float) : is_finite x = true -> finite_spec (Prim2SF x).
Proof.
  unfold is_finite, is_nan, is_infinity.
  rewrite !FloatAxioms.eqb_spec, abs_spec.
  change (Prim2SF infinity) with (S754_infinity false).
  destruct (Prim2SF x) as [s|s| |s m e]; simpl; try done.
  by destruct s.
Qed.

Lemma sub_compare (x y : float) :
  is_finite x = true -> is_finite y = true ->
  SFcompare (Prim2SF 0) (Prim2SF (x - y)) = SFcompare (Prim2SF y) (Prim2SF x).
Proof.
  intros Hx%is_finite_spec Hy%is_finite_spec.
  rewrite sub_spec. change (Prim2SF 0) with (S754_zero false).
  apply SFsub_compare; auto using Prim2SF_valid.
Qed.

(** For finite floats the test [x - y >= 0] is the test [x >= y]. *)
Lemma sub_nonneg (x y : float) :
  is_finite x = true -> is_finite y = true ->
  (0 <=? x - y)%float = (y <=? x)%float.
Proof.
  intros Hx Hy. rewrite !FloatAxioms.leb_spec. unfold SFleb. by rewrite sub_compare.
Qed.

Lemma exact_diff_opp sx mx ex sy my ey :
  exact_diff sy my ey sx mx ex = - exact_diff sx mx ex sy my ey.
Proof. unfold exact_diff. rewrite (Z.min_comm ey ex). lia. Qed.

Lemma SFsub_compare_lt (x y : spec_float) :
  valid_binary x = true -> valid_binary y = true ->
  SFcompare x y = Some Lt ->
  SFcompare (S754_zero false) (SF64sub x y) = Some Gt.
Proof.
  intros Vx Vy H.
  destruct x as [sx|sx| |sx mx ex], y as [sy|sy| |sy my ey];
    try (simpl in H; try done;
         by repeat match goal with s : bool |- _ => destruct s end).
  simpl in Vx, Vy.
  rewrite SFcompare_exact_diff, exact_diff_opp in H by done.
  unfold SF64sub, SFsub. rewrite binary_normalize_compare
    by (apply bounded_inv in Vx, Vy; lia).
  change (Some (0 ?= exact_diff sx mx ex sy my ey) = Some Gt). f_equal.
  assert (H' : (0 ?= - exact_diff sx mx ex sy my ey) = Lt) by congruence.
  apply -> Z.compare_lt_iff in H'. apply Z.compare_gt_iff. lia.
Qed.


(** [x - x] is never positive: a zero for a finite [x], NaN otherwise. *)
Lemma sub_diag_not_pos (x : float) : (0 <? x - x)%float = false.
Proof.
  rewrite FloatAxioms.ltb_spec, sub_spec. unfold SFltb.
  change (Prim2SF 0) with (S754_zero false).
  destruct (Prim2SF x) as [s|s| |s m e]; simpl.
  - by destruct s.
  - by destruct s.
  - done.
  - by rewrite Z.sub_diag.
Qed.

End Binary64.

(** ** The aggregator: buffers and counters *)

Section Aggregator.
Import Geiger.
Implicit Types (s : GeigerState) (c : GeigerConfig) (ts now : float).

Lemma reset_init s now : reset s now = init (cfg s) now.
Proof. reflexivity. Qed.

Lemma cfg_step s o : cfg (step s o) = cfg s.
Proof. by destruct o. Qed.

Lemma cfg_run ops s : cfg (run s ops) = cfg s.
Proof.
  revert s. induction ops as [|o ops IH]; intros s; [done|].
  unfold run in *. simpl. by rewrite IH, cfg_step.
Qed.

Lemma run_snoc s ops o : run s (ops ++ [o]) = step (run s ops) o.
Proof. unfold run. by rewrite foldl_app. Qed.

(** What [on_pulse] does to [deltas], by the three ways through its test. *)
Lemma on_pulse_deltas_first s ts :
  last_ts s = None -> deltas (on_pulse s ts) = deltas s.
Proof. intros H. unfold on_pulse. simpl. by rewrite H. Qed.

Lemma on_pulse_deltas_append s ts last :
  last_ts s = Some last -> (0 <=? ts - last)%float = true ->
  deltas (on_pulse s ts) = trimmed (max_deltas (cfg s)) (deltas s ++ [(ts - last)%float]).
Proof. intros H Hdt. unfold on_pulse. simpl. by rewrite H, Hdt. Qed.

Lemma on_pulse_deltas_skip s ts last :
  last_ts s = Some last -> (0 <=? ts - last)%float = false ->
  deltas (on_pulse s ts) = deltas s.
Proof. intros H Hdt. unfold on_pulse. simpl. by rewrite H, Hdt. Qed.

Lemma on_pulse_deltas_cases s ts :
  deltas (on_pulse s ts) = deltas s \/
  exists dt, deltas (on_pulse s ts) = trimmed (max_deltas (cfg s)) (deltas s ++ [dt]).
Proof.
  destruct (last_ts s) as [last|] eqn:H.
  - destruct (0 <=? ts - last)%float eqn:Hdt.
    + right. eexists. by apply on_pulse_deltas_append.
    + left. by eapply on_pulse_deltas_skip.
  - left. by apply on_pulse_deltas_first.
Qed.

Lemma tick_second_per_second s :
  per_second (tick_second s)
  = trimmed (max_series (cfg s)) (per_second s ++ [_current_second_count s]).
Proof. reflexivity. Qed.

Lemma within_capacity_init c now :
  0 <= max_deltas c -> 0 <= max_series c -> within_capacity (init c now).
Proof. intros. split; simpl; lia. Qed.

Lemma within_capacity_step s o :
  1 <= max_deltas (cfg s) -> 1 <= max_series (cfg s) ->
  within_capacity s -> within_capacity (step s o).
Proof.
  intros Hd Hs [H1 H2]. unfold within_capacity. rewrite cfg_step.
  destruct o as [ts| |now]; simpl step.
  - split; [|exact H2].
    destruct (on_pulse_deltas_cases s ts) as [->|[dt ->]]; [done|].
    rewrite trimmed_length by done. lia.
  - split; [exact H1|].
    rewrite tick_second_per_second, trimmed_length by done. lia.
  - split; simpl; lia.
Qed.

Lemma within_capacity_run ops s :
  1 <= max_deltas (cfg s) -> 1 <= max_series (cfg s) ->
  within_capacity s -> within_capacity (run s ops).
Proof.
  induction ops as [|o ops IH] using rev_ind; intros Hd Hs H; [done|].
  rewrite run_snoc. apply within_capacity_step; rewrite ?cfg_run; auto.
Qed.

Lemma total_step_pulse s ts : total (on_pulse s ts) = total s + 1.
Proof. reflexivity. Qed.



End Aggregator.

(** ** Properties of the aggregator *)

Section AggregatorProperties.
Import Geiger.
Implicit Types (s : GeigerState) (c : GeigerConfig) (ts now : float).

(** Where the trimming works: with capacities of at least one, every state
    reached from a new aggregator by [on_pulse], [tick_second] and [reset]
    keeps [len(deltas) <= max_deltas] and [len(per_second) <= max_series];
    and in such a state an append keeps exactly the newest [max_deltas]
    (resp. [max_series]) entries, so what is evicted is the oldest. *)
Theorem buffers_within_capacity c now ops :
  1 <= max_deltas c -> 1 <= max_series c ->
  let s := run (init c now) ops in
  within_capacity s /\
  (forall ts last, last_ts s = Some last -> (0 <=? ts - last)%float = true ->
     deltas (on_pulse s ts)
     = newest (Z.to_nat (max_deltas c)) (deltas s ++ [(ts - last)%float])) /\
  per_second (tick_second s)
  = newest (Z.to_nat (max_series c)) (per_second s ++ [_current_second_count s]).
Proof.
  intros Hd Hs s.
  assert (Hc : cfg s = c) by apply cfg_run.
  split; [|split].
  - apply within_capacity_run; simpl; try done. split; simpl; lia.
  - intros ts last Hl Hdt.
    rewrite (on_pulse_deltas_append s ts last Hl Hdt), Hc. by apply trimmed_newest.
  - rewrite tick_second_per_second, Hc. by apply trimmed_newest.
Qed.

Lemma buffers_within_capacity_witness :
  1 <= max_deltas (with_capacities 2 1) /\
  within_capacity
    (run (init (with_capacities 2 1) 0)
       [OnPulse 1; OnPulse 2; TickSecond; OnPulse 3; OnPulse 4; TickSecond; Reset 5; OnPulse 6]).
Proof.
  split; [simpl; lia|].
  apply (buffers_within_capacity (with_capacities 2 1) 0
           [OnPulse 1; OnPulse 2; TickSecond; OnPulse 3; OnPulse 4; TickSecond; Reset 5; OnPulse 6]);
    simpl; lia.
Defined.

(** C1. The code breaks the invariant at a capacity of zero. After the
    append the guard [len(l) > cap] fires and the code trims with
    [l[-cap:]], which for [cap = 0] is [l[-0:]], the whole list: with
    [max_deltas = 0] and [max_series = 0], two pulses and one tick leave one
    delta and one closed second in buffers that may hold none, and the
    buffers then grow with every further pulse and tick. *)
Theorem buffers_exceed_zero_capacity :
  let c := with_capacities 0 0 in
  let s := run (init c 0) [OnPulse 0; OnPulse 1; TickSecond] in
  max_deltas (cfg s) = 0 /\ max_series (cfg s) = 0 /\
  deltas s = [1%float] /\ per_second s = [2] /\
  trimmed (max_deltas c) [1%float] = Py.slice_from (- 0) [1%float] /\
  Z.of_nat (length (deltas s)) > max_deltas (cfg s) /\
  Z.of_nat (length (per_second s)) > max_series (cfg s) /\
  (let s' := run s [OnPulse 2; TickSecond; OnPulse 3; TickSecond] in
   length (deltas s') = 3%nat /\ length (per_second s') = 3%nat).
Proof. vm_compute. repeat split. Qed.







(** C10. [tick_second] appends the open-bin count, zero or not, to
    [per_second], trims the buffer to its capacity and sets the counter to
    zero: below capacity [per_second] grows by exactly this entry, and with a
    capacity of at least one the count is its newest entry. Hence [k] ticks
    of a freshly reset aggregator, with [k <= max_series] and no pulse, leave
    [k] zeros. *)
Theorem tick_second_records s :
  per_second (tick_second s)
  = trimmed (max_series (cfg s)) (per_second s ++ [_current_second_count s]) /\
  (Z.of_nat (length (per_second s)) < max_series (cfg s) ->
     per_second (tick_second s) = per_second s ++ [_current_second_count s]) /\
  (1 <= max_series (cfg s) ->
     last (per_second (tick_second s)) = Some (_current_second_count s)) /\
  _current_second_count (tick_second s) = 0 /\
  (forall now (k : nat),
     Z.of_nat k <= max_series (cfg s) ->
     per_second (run (reset s now) (replicate k TickSecond)) = replicate k 0 /\
     _current_second_count (run (reset s now) (replicate k TickSecond)) = 0).
Proof.
  split; [apply tick_second_per_second|]. split; [|split; [|split; [done|]]].
  - intros Hlen. rewrite tick_second_per_second. apply trimmed_fits.
    rewrite length_app. simpl. lia.
  - intros Hc. rewrite tick_second_per_second, trimmed_newest by done.
    apply newest_last. lia.
  - intros now k. induction k as [|k IH]; intros Hk; [done|].
    rewrite replicate_S_end, run_snoc. simpl step.
    destruct IH as [IHp IHc]; [lia|].
    split; [|done].
    rewrite tick_second_per_second, IHp, IHc, cfg_run. simpl cfg.
    rewrite trimmed_fits; [by rewrite <- replicate_S_end|].
    rewrite length_app, length_replicate. simpl. lia.
Qed.

Lemma tick_second_records_witness :
  per_second (run (init (with_capacities 2 3) 0) (replicate 3 TickSecond)) = [0; 0; 0].
Proof.
  pose proof (tick_second_records (init (with_capacities 2 3) 0)) as (_ & _ & _ & _ & H).
  destruct (H 0%float 3%nat) as [Hp _]; [simpl; lia|].
  exact Hp.
Defined.
End AggregatorProperties.

(** ** Properties of [reset] and [snapshot] *)

Section SnapshotProperties.
Import Geiger.
Implicit Types (s : GeigerState) (c : GeigerConfig) (ts now : float).

Lemma snap_elapsed_eq s now : snap_elapsed (snapshot s now) = Py.max 0 (now - t0 s).
Proof. unfold snapshot. by destruct (0 <? Py.max 0 (now - t0 s))%float. Qed.

Lemma snap_total_eq s now : snap_total (snapshot s now) = total s.
Proof. unfold snapshot. by destruct (0 <? Py.max 0 (now - t0 s))%float. Qed.

Lemma max_zero_sub_diag (x : float) : Py.max 0 (x - x) = 0%float.
Proof. unfold Py.max. by rewrite sub_diag_not_pos. Qed.

(** [elapsed] is never negative and never NaN. *)
Lemma snap_elapsed_nonneg s now : (0 <=? snap_elapsed (snapshot s now))%float = true.
Proof.
  rewrite snap_elapsed_eq. unfold Py.max.
  destruct (0 <? now - t0 s)%float eqn:E; [|done].
  revert E. rewrite FloatAxioms.ltb_spec, FloatAxioms.leb_spec. unfold SFltb, SFleb.
  by destruct (SFcompare _ _) as [[]|].
Qed.

(** C7. After any state, one [reset] and equally a second one leave
    [total = 0], empty [deltas] and [per_second], a zero open-bin counter and
    no [last_ts]; the second [reset] gives the state a single [reset] at its
    clock reading gives. A snapshot then reports [total = 0] and, as
    [elapsed], the advance of the clock since that [reset] (never negative):
    zero when the clock reads the same. *)
Theorem reset_idempotent s now1 now2 :
  let s1 := reset s now1 in
  let s2 := reset s1 now2 in
  (total s1 = 0 /\ deltas s1 = [] /\ per_second s1 = [] /\
   _current_second_count s1 = 0 /\ last_ts s1 = None /\ t0 s1 = now1) /\
  (total s2 = 0 /\ deltas s2 = [] /\ per_second s2 = [] /\
   _current_second_count s2 = 0 /\ last_ts s2 = None /\ t0 s2 = now2) /\
  s2 = reset s now2 /\
  (forall now,
     snap_total (snapshot s1 now) = 0 /\
     snap_elapsed (snapshot s1 now) = Py.max 0 (now - now1) /\
     snap_total (snapshot s2 now) = 0 /\
     snap_elapsed (snapshot s2 now) = Py.max 0 (now - now2)) /\
  snap_elapsed (snapshot s1 now1) = 0%float /\
  snap_elapsed (snapshot s2 now2) = 0%float.
Proof.
  intros s1 s2. repeat split; try apply snap_elapsed_eq; try apply snap_total_eq.
  - rewrite snap_elapsed_eq. apply max_zero_sub_diag.
  - rewrite snap_elapsed_eq. apply max_zero_sub_diag.
Qed.

(** What [snapshot] computes as rate and error, by the two ways through its
    test on [elapsed]. *)
Lemma snapshot_rate_pos s now :
  (0 <? snap_elapsed (snapshot s now))%float = true ->
  snap_rate_bq (snapshot s now)
  = (Py.float_of_int (total s) / snap_elapsed (snapshot s now))%float /\
  snap_rate_err (snapshot s now)
  = if total s >? 0
    then (Py.math_sqrt (total s) / snap_elapsed (snapshot s now))%float
    else 0%float.
Proof.
  rewrite snap_elapsed_eq. unfold snapshot. intros H. by rewrite H.
Qed.

Lemma snapshot_rate_zero s now :
  (0 <? snap_elapsed (snapshot s now))%float = false ->
  snap_rate_bq (snapshot s now) = 0%float /\ snap_rate_err (snapshot s now) = 0%float.
Proof.
  rewrite snap_elapsed_eq. unfold snapshot. intros H. by rewrite H.
Qed.

(** C3, as the code has it. With [elapsed > 0], [rate = total / elapsed] and
    [rate_err = sqrt(total) / elapsed] when [total > 0], else 0; without
    [elapsed > 0] both are 0, whatever [total] is. A state with [total = 100]
    whose snapshot has [elapsed = 10] yields [rate = 10.0] and
    [rate_err = 1.0]. *)
Theorem snapshot_rate s now :
  let snap := snapshot s now in
  snap_elapsed snap = Py.max 0 (now - t0 s) /\
  ((0 <? snap_elapsed snap)%float = true ->
     snap_rate_bq snap = (Py.float_of_int (total s) / snap_elapsed snap)%float /\
     snap_rate_err snap
     = if total s >? 0 then (Py.math_sqrt (total s) / snap_elapsed snap)%float
       else 0%float) /\
  ((0 <? snap_elapsed snap)%float = false ->
     snap_rate_bq snap = 0%float /\ snap_rate_err snap = 0%float) /\
  (total s = 100 -> snap_elapsed snap = 10%float ->
     snap_rate_bq snap = 10%float /\ snap_rate_err snap = 1%float).
Proof.
  intros snap. split; [apply snap_elapsed_eq|].
  split; [apply snapshot_rate_pos|]. split; [apply snapshot_rate_zero|].
  intros Ht He. subst snap.
  destruct (snapshot_rate_pos s now) as [Hr Herr]; [by rewrite He|].
  rewrite Hr, Herr, He, Ht. by vm_compute.
Qed.

Lemma snapshot_rate_witness :
  let s := {| cfg := default_config; t0 := 1000; total := 100; last_ts := Some 1009.5%float;
              deltas := []; per_second := []; _current_second_count := 0 |} in
  snap_elapsed (snapshot s 1010) = 10%float /\
  snap_rate_bq (snapshot s 1010) = 10%float /\
  snap_rate_err (snapshot s 1010) = 1%float.
Proof.
  split; [reflexivity|].
  apply (snapshot_rate
           {| cfg := default_config; t0 := 1000; total := 100; last_ts := Some 1009.5%float;
              deltas := []; per_second := []; _current_second_count := 0 |} 1010);
    reflexivity.
Defined.

(** C3 as stated fails when [elapsed] is zero and [total] is positive:
    [rate_err] is 0, not [sqrt(total) / elapsed]. *)
Lemma rate_err_zero_elapsed :
  let s := on_pulse (init default_config 5) 5 in
  let snap := snapshot s 5 in
  total s > 0 /\
  snap_elapsed snap = 0%float /\
  snap_rate_err snap = 0%float /\
  snap_rate_err snap <> (Py.math_sqrt (total s) / snap_elapsed snap)%float.
Proof.
  vm_compute. repeat split; try done.
Qed.


Lemma running_mean_loop_prefix_means series i z acc :
  running_mean_loop series i z acc = acc ++ prefix_means series i z.
Proof.
  revert i z acc. induction series as [|c series IH]; intros i z acc; simpl.
  - by rewrite app_nil_r.
  - by rewrite IH, <- app_assoc.
Qed.

Lemma prefix_means_length series i z : length (prefix_means series i z) = length series.
Proof. revert i z. induction series; intros; simpl; auto. Qed.

Lemma prefix_means_lookup series i z (k : nat) :
  (k < length series)%nat ->
  prefix_means series i z !! k
  = Some (Py.int_truediv (z + sumZ (take (S k) series)) (Pos.of_nat (Pos.to_nat i + k))).
Proof.
  revert i z k. induction series as [|c series IH]; intros i z k Hk; simpl in Hk; [lia|].
  destruct k as [|k].
  - simpl. rewrite ?take_0. unfold sumZ. simpl. do 2 f_equal; [lia|].
    rewrite Nat.add_0_r. by rewrite Pos2Nat.id.
  - change (prefix_means (c :: series) i z !! S k)
      with (prefix_means series (Pos.succ i) (z + c) !! k).
    rewrite IH by lia. do 2 f_equal.
    + change (take (S (S k)) (c :: series)) with (c :: take (S k) series).
      unfold sumZ. simpl. lia.
    + f_equal. rewrite Pos2Nat.inj_succ. lia.
Qed.

Lemma snap_running_mean_eq s now :
  snap_running_mean (snapshot s now) = prefix_means (per_second s) 1 0.
Proof.
  unfold snapshot. destruct (0 <? Py.max 0 (now - t0 s))%float;
    apply (running_mean_loop_prefix_means _ 1 0 []).
Qed.

(** C8. The [running_mean] of a snapshot is as long as [per_second], and its
    entry [i] is the sum of [per_second[0..i]] divided by [i + 1]. *)
Theorem snapshot_running_mean s now (i : nat) :
  length (snap_running_mean (snapshot s now)) = length (per_second s) /\
  ((i < length (per_second s))%nat ->
   snap_running_mean (snapshot s now) !! i
   = Some (Py.int_truediv (sumZ (take (S i) (per_second s))) (Pos.of_succ_nat i))).
Proof.
  rewrite snap_running_mean_eq. split; [apply prefix_means_length|].
  intros Hi. rewrite prefix_means_lookup by done.
  rewrite Z.add_0_l. do 2 f_equal.
  change (Pos.to_nat 1 + i)%nat with (S i). by rewrite Pos.of_nat_succ.
Qed.

Lemma snapshot_running_mean_witness :
  let s := run (init default_config 0)
             [OnPulse 1; TickSecond; OnPulse 2; OnPulse 3; TickSecond; TickSecond] in
  per_second s = [1; 2; 0] /\
  snap_running_mean (snapshot s 4) !! 2%nat = Some 1%float.
Proof.
  split; [reflexivity|].
  pose proof (snapshot_running_mean
    (run (init default_config 0)
       [OnPulse 1; TickSecond; OnPulse 2; OnPulse 3; TickSecond; TickSecond]) 4 2) as [_ H].
  rewrite H by (simpl; lia). reflexivity.
Defined.

(** What [snapshot] reports as [last_age]: the test [if self.last_ts] is false
    for [None] and for a timestamp that is a zero. *)
Lemma snap_last_age_eq s now :
  snap_last_age (snapshot s now)
  = match last_ts s with
    | Some prev => if Py.truth prev then Some (now - prev)%float else None
    | None => None
    end.
Proof. unfold snapshot. by destruct (0 <? Py.max 0 (now - t0 s))%float. Qed.

(** [last_age] is absent exactly when no pulse has been recorded or the last
    one carries a timestamp equal to zero. *)
Lemma snap_last_age_None s now :
  snap_last_age (snapshot s now) = None <->
  last_ts s = None \/ exists prev, last_ts s = Some prev /\ (prev =? 0)%float = true.
Proof.
  rewrite snap_last_age_eq. unfold Py.truth.
  destruct (last_ts s) as [prev|]; [|by split; [left|]].
  destruct (prev =? 0)%float eqn:E; simpl.
  - split; [|done]. intros _. right. by exists prev.
  - split; [done|]. intros [H|(p & H & Hp)]; [done|]. congruence.
Qed.

(** C9 on the code: after one pulse at timestamp [0.0] the state has a
    [last_ts], and the snapshot taken at clock reading [5.0] reports no
    [last_age] where the property gives [5.0 - 0.0]. *)
Theorem last_age_absent_after_pulse_at_zero :
  let s := on_pulse (init default_config 0) 0 in
  total s = 1 /\
  last_ts s = Some 0%float /\
  snap_last_age (snapshot s 5) = None /\
  snap_last_age (snapshot (on_pulse (init default_config 0) 1) 5) = Some 4%float.
Proof. by vm_compute. Qed.

End SnapshotProperties.

(** ** Properties of the broadcast hub *)

Section BroadcastProperties.
Import WS.
Context {Msg Net : Type}.
Variable send_json : WebSocket -> Msg -> Net -> option Py.exn * Net.
Implicit Types (sends : list (WebSocket * option Py.exn)) (dead : list WebSocket).

Lemma failed_snoc_returned sends ws : failed (sends ++ [(ws, None)]) = failed sends.
Proof. unfold failed. rewrite omap_app. simpl. apply app_nil_r. Qed.

Lemma failed_snoc_raised sends ws e : failed (sends ++ [(ws, Some e)]) = failed sends ++ [ws].
Proof. unfold failed. by rewrite omap_app. Qed.

Lemma failed_attempted sends ws : ws ∈ failed sends -> ws ∈ sends.*1.
Proof.
  unfold failed. rewrite list_elem_of_omap. intros ([ws' [e|]] & Hin & Heq); [|done].
  injection Heq as ->. apply list_elem_of_fmap. by exists (ws, Some e).
Qed.

(** The loop: it calls [send_json] on the clients in order; it stops early
    only on something that is not an Exception; when it runs to the end it
    has called [send_json] once on each client, and [dead] holds the clients
    whose call raised. *)
Lemma deliver_inv clients message dead net sends r dead' net' sends' :
  deliver send_json clients message dead net sends = (r, dead', net', sends') ->
  dead = failed sends ->
  (exists called, sends'.*1 = sends.*1 ++ called /\ called `prefix_of` clients /\
                  (r = None -> called = clients)) /\
  (r = None -> dead' = failed sends') /\
  (forall e, r = Some e -> Py.is_Exception e = false).
Proof.
  revert dead net sends. induction clients as [|ws clients IH]; intros dead net sends H Hd.
  { simpl in H. injection H as <- <- <- <-. split; [|by split].
    exists []. by rewrite app_nil_r. }
  simpl in H. destruct (send_json ws message net) as [[e|] net1].
  - destruct (Py.is_Exception e) eqn:He.
    + apply IH in H as ((called & Hs & Hp & Hall) & Hdead & Hexn);
        [|by rewrite failed_snoc_raised, Hd].
      split; [|by split]. exists (ws :: called).
      rewrite Hs, fmap_app, <- app_assoc. split; [done|].
      split; [by apply prefix_cons|]. intros Hr. by rewrite Hall.
    + injection H as <- <- <- <-. split; [|split; [done|]].
      * exists [ws]. rewrite fmap_app. split; [done|].
        split; [|done]. by apply prefix_cons, prefix_nil.
      * intros e' [= <-]. done.
  - apply IH in H as ((called & Hs & Hp & Hall) & Hdead & Hexn);
      [|by rewrite failed_snoc_returned].
    split; [|by split]. exists (ws :: called).
    rewrite Hs, fmap_app, <- app_assoc. split; [done|].
    split; [by apply prefix_cons|]. intros Hr. by rewrite Hall.
Qed.

(** Every entry of the record of a round is a call of [send_json] with the
    message of the round. *)
Lemma deliver_sends clients message dead net sends r dead' net' sends' :
  deliver send_json clients message dead net sends = (r, dead', net', sends') ->
  forall ws o, (ws, o) ∈ sends' -> (ws, o) ∈ sends \/
    exists n n', send_json ws message n = (o, n').
Proof.
  revert dead net sends. induction clients as [|ws clients IH];
    intros dead net sends H ws' o Hin.
  { simpl in H. injection H as <- <- <- <-. by left. }
  simpl in H. destruct (send_json ws message net) as [[e|] net1] eqn:Es.
  - destruct (Py.is_Exception e).
    + destruct (IH _ _ _ H ws' o Hin) as [Hold|Hnew]; [|by right].
      apply elem_of_app in Hold as [Hold|Hlast]; [by left|].
      apply list_elem_of_singleton in Hlast as [= -> ->]. right. eauto.
    + injection H as <- <- <- <-.
      apply elem_of_app in Hin as [Hold|Hlast]; [by left|].
      apply list_elem_of_singleton in Hlast as [= -> ->]. right. eauto.
  - destruct (IH _ _ _ H ws' o Hin) as [Hold|Hnew]; [|by right].
    apply elem_of_app in Hold as [Hold|Hlast]; [by left|].
    apply list_elem_of_singleton in Hlast as [= -> ->]. right. eauto.
Qed.

(** What leaves the loop is what the last call of [send_json] raised, and a
    loop that runs to the end has met nothing but Exceptions. *)
Lemma deliver_raised clients message dead net sends r dead' net' sends' :
  deliver send_json clients message dead net sends = (r, dead', net', sends') ->
  (forall e, r = Some e -> exists ws, last sends' = Some (ws, Some e)) /\
  (r = None -> forall ws e, (ws, Some e) ∈ sends' ->
     (ws, Some e) ∈ sends \/ Py.is_Exception e = true).
Proof.
  revert dead net sends. induction clients as [|ws clients IH]; intros dead net sends H.
  { simpl in H. injection H as <- <- <- <-. split; [done|]. intros _ ws e Hin. by left. }
  simpl in H. destruct (send_json ws message net) as [[e|] net1].
  - destruct (Py.is_Exception e) eqn:He.
    + apply IH in H as [Hlast Hall]. split; [done|].
      intros Hr ws' e' Hin. destruct (Hall Hr ws' e' Hin) as [Hold|Hexn]; [|by right].
      apply elem_of_app in Hold as [Hold|Hnew]; [by left|].
      apply list_elem_of_singleton in Hnew as [= -> ->]. by right.
    + injection H as <- <- <- <-. split; [|done].
      intros e' [= <-]. exists ws. apply last_snoc.
  - apply IH in H as [Hlast Hall]. split; [done|].
    intros Hr ws' e' Hin. destruct (Hall Hr ws' e' Hin) as [Hold|Hexn]; [|by right].
    apply elem_of_app in Hold as [Hold|Hnew]; [by left|].
    by apply list_elem_of_singleton in Hnew.
Qed.

Lemma prune_clients (self : WSManager) dead :
  clients (prune self dead) = clients self ∖ list_to_set dead.
Proof.
  destruct self as [reg]. unfold prune. simpl.
  assert (H : forall reg : gset WebSocket,
             foldl (fun s ws => s ∖ {[ws]}) reg dead = reg ∖ list_to_set dead).
  { clear reg. induction dead as [|ws dead IH]; intros reg; simpl.
    - by rewrite difference_empty_L.
    - by rewrite IH, difference_difference_l_L. }
  destruct dead as [|ws dead]; [simpl; by rewrite difference_empty_L|apply H].
Qed.

(** Whatever the registry has become by the second critical section, the
    pruning leaves no dead subscriber in it. *)
Lemma prune_removes (self : WSManager) dead ws : ws ∈ dead -> ws ∉ clients (prune self dead).
Proof.
  rewrite prune_clients, elem_of_difference, elem_of_list_to_set. tauto.
Qed.

(** C5. A failure of one delivery stops nothing. Every call that a round of
    [broadcast] makes is a call of [send_json] with the message, on the
    subscribers registered at its start, in order. When the calls raise
    nothing but Exceptions the round runs to the end, whichever of them
    raise: it then has called [send_json] once on every subscriber of the
    start, it removes exactly the subscribers whose call raised, so none of
    them is in the registry afterwards (nor in any other registry after the
    pruning, should connections have come or gone during the round), and the
    next [broadcast] calls [send_json] on none of them. A round ends early
    only by what its last call of [send_json] raised, and that is not an
    Exception (a cancellation). *)
Theorem broadcast_isolates_failures (self : WSManager) (message : Msg) (net : Net) :
  let '(r, self', net', sends) := broadcast send_json self message net in
  (forall ws o, (ws, o) ∈ sends -> exists n n', send_json ws message n = (o, n')) /\
  sends.*1 `prefix_of` elements (clients self) /\
  ((forall ws n e, ws ∈ clients self -> (send_json ws message n).1 = Some e ->
      Py.is_Exception e = true) -> r = None) /\
  match r with
  | Some e =>
      Py.is_Exception e = false /\
      (exists ws, last sends = Some (ws, Some e)) /\
      self' = self
  | None =>
      sends.*1 = elements (clients self) /\
      NoDup sends.*1 /\
      (forall ws e, (ws, Some e) ∈ sends -> Py.is_Exception e = true) /\
      clients self' = clients self ∖ list_to_set (failed sends) /\
      (forall ws, ws ∈ clients self -> ws ∉ failed sends -> ws ∈ clients self') /\
      (forall ws, ws ∈ failed sends -> ws ∉ clients self') /\
      (forall (other : WSManager) ws,
         ws ∈ failed sends -> ws ∉ clients (prune other (failed sends))) /\
      (forall message2 net2,
         let '(_, _, _, sends2) := broadcast send_json self' message2 net2 in
         forall ws, ws ∈ failed sends -> ws ∉ sends2.*1)
  end.
Proof.
  unfold broadcast at 1.
  destruct (deliver send_json (elements (clients self)) message [] net [])
    as [[[r dead] net1] sends] eqn:E.
  pose proof (deliver_sends _ _ _ _ _ _ _ _ _ E) as Hcalls.
  pose proof (deliver_raised _ _ _ _ _ _ _ _ _ E) as [Hlast Honly].
  apply deliver_inv in E as ((called & Hs & Hp & Hall) & Hdead & Hexn); [|done].
  simpl in Hs.
  assert (Hcalls' : forall ws o, (ws, o) ∈ sends ->
            exists n n', send_json ws message n = (o, n')).
  { intros ws o Hin. destruct (Hcalls ws o Hin) as [Hnil|Hcall]; [|done].
    by apply elem_of_nil in Hnil. }
  destruct r as [e|].
  { split; [done|]. split; [by rewrite Hs|]. split.
    - intros Hexc. exfalso.
      destruct (Hlast e eq_refl) as [ws Hl].
      apply last_Some in Hl as [sends0 ->].
      assert (Hin : (ws, Some e) ∈ sends0 ++ [(ws, Some e)]).
      { apply elem_of_app. right. by apply list_elem_of_singleton. }
      destruct (Hcalls' ws (Some e) Hin) as (n & n' & Hcall).
      assert (Hreg : ws ∈ clients self).
      { apply elem_of_elements. destruct Hp as [rest ->]. apply elem_of_app. left.
        rewrite <- Hs. apply list_elem_of_fmap. by exists (ws, Some e). }
      specialize (Hexc ws n e Hreg). rewrite Hcall in Hexc.
      specialize (Hexc eq_refl). specialize (Hexn e eq_refl). congruence.
    - split; [by apply Hexn|]. split; [by apply Hlast|]. done. }
  split; [done|]. split; [by rewrite Hs|]. split; [done|].
  rewrite (Hall eq_refl) in Hs. specialize (Hdead eq_refl). subst dead.
  clear called Hp Hall.
  assert (Hgone : forall ws, ws ∈ failed sends -> ws ∉ clients (prune self (failed sends)))
    by (intros ws; apply prune_removes).
  split; [done|]. split; [rewrite Hs; apply NoDup_elements|].
  split.
  { intros ws e Hin. destruct (Honly eq_refl ws e Hin) as [Hnil|He]; [|done].
    by apply elem_of_nil in Hnil. }
  split; [apply prune_clients|].
  split.
  { intros ws Hin Hnf. rewrite prune_clients, elem_of_difference, elem_of_list_to_set.
    by split. }
  split; [done|].
  split; [intros other ws; apply prune_removes|].
  intros message2 net2. unfold broadcast.
  destruct (deliver send_json _ message2 [] net2 []) as [[[r2 dead2] net2'] sends2] eqn:E2.
  apply deliver_inv in E2 as ((called & Hs2 & Hp2 & _) & _ & _); [|done].
  simpl in Hs2.
  assert (Hsub : forall ws, ws ∈ sends2.*1 -> ws ∈ clients (prune self (failed sends))).
  { intros ws Hin. rewrite Hs2 in Hin. apply elem_of_elements.
    destruct Hp2 as [rest ->]. apply elem_of_app. by left. }
  destruct r2; intros ws Hf Hin; by apply (Hgone ws Hf), Hsub.
Qed.

End BroadcastProperties.

(** Three subscribers, of which the second is closed: its send raises a
    RuntimeError, the round runs to the end, the other two receive the
    message, and the registry keeps these two. *)
Lemma broadcast_isolates_failures_witness :
  let '(r, self', inbox, sends) :=
    WS.broadcast (hung_up 2%positive) {| WS.clients := {[1; 2; 3]}%positive |} "tick" [] in
  r = None /\
  ((1%positive, "tick") ∈ inbox) /\ ((3%positive, "tick") ∈ inbox) /\
  failed sends = [2%positive] /\
  (2%positive ∉ WS.clients self') /\
  (1%positive ∈ WS.clients self') /\ (3%positive ∈ WS.clients self').
Proof.
  pose proof (broadcast_isolates_failures (hung_up 2%positive)
                {| WS.clients := {[1; 2; 3]}%positive |} "tick" []) as H.
  destruct (WS.broadcast (hung_up 2%positive) _ "tick" []) as [[[r self'] inbox] sends] eqn:E.
  destruct H as (_ & _ & Hcompletes & H).
  assert (Hr : r = None).
  { apply Hcompletes. intros ws n e _. unfold hung_up.
    destruct (decide (ws = 2%positive)); simpl; [by intros [= <-]|done]. }
  subst r. destruct H as (_ & _ & _ & Hc & Hkept & Hgone & _).
  assert (Hsends : failed sends = [2%positive] /\
                   inbox = [(3%positive, "tick"); (1%positive, "tick")]).
  { unfold WS.broadcast in E.
    destruct (WS.deliver (hung_up 2%positive) _ "tick" [] []) as [[[r dead] inbox'] sends'] eqn:E'.
    vm_compute in E'. injection E' as <- <- <- <-. by inversion E. }
  destruct Hsends as [Hf ->]. rewrite Hf in Hkept, Hgone.
  split; [done|].
  split; [rewrite !elem_of_cons; auto|]. split; [rewrite !elem_of_cons; auto|].
  split; [done|].
  split; [apply Hgone, list_elem_of_singleton; done|].
  split; apply Hkept; simpl;
    rewrite ?elem_of_union, ?elem_of_singleton, ?list_elem_of_singleton; auto; done.
Defined.

(** ** app.py keeps the state of geiger.py *)

Section AppState.
Implicit Types (s : App.GeigerState) (g : App.Settings) (ts now : float).

Lemma app_reset g s now :
  App.to_geiger (App.config_of g) (App.reset now)
  = Geiger.reset (App.to_geiger (App.config_of g) s) now.
Proof. reflexivity. Qed.

Lemma app_on_pulse g s ts :
  App.to_geiger (App.config_of g) (App.on_pulse g s ts)
  = Geiger.on_pulse (App.to_geiger (App.config_of g) s) ts.
Proof. reflexivity. Qed.

Lemma app_tick_second g s :
  App.to_geiger (App.config_of g) (App.tick_second g s)
  = Geiger.tick_second (App.to_geiger (App.config_of g) s).
Proof. reflexivity. Qed.

Lemma app_run g ops s :
  App.to_geiger (App.config_of g) (App.run g s ops)
  = Geiger.run (App.to_geiger (App.config_of g) s) ops.
Proof.
  revert s. induction ops as [|o ops IH]; intros s; [done|].
  unfold App.run, Geiger.run in *. simpl. rewrite IH. by destruct o.
Qed.

(** So the buffers of app.py's class stay within [MAX_DELTAS] and
    [MAX_SERIES] when these are at least one. *)
Lemma app_within_capacity g now ops :
  1 <= App.MAX_DELTAS g -> 1 <= App.MAX_SERIES g ->
  Z.of_nat (length (App.deltas (App.run g (App.reset now) ops))) <= App.MAX_DELTAS g /\
  Z.of_nat (length (App.per_second (App.run g (App.reset now) ops))) <= App.MAX_SERIES g.
Proof.
  intros Hd Hs.
  pose proof (within_capacity_run ops (Geiger.init (App.config_of g) now) Hd Hs) as H.
  change (Geiger.init (App.config_of g) now)
    with (App.to_geiger (App.config_of g) (App.reset now)) in H.
  rewrite <- app_run in H. apply H. split; simpl; lia.
Qed.

(** The snapshot of app.py is the one of geiger.py with one more key,
    [seconds = int(elapsed)], which raises when [elapsed] is infinite. *)
Lemma app_snapshot g s now :
  let snap := Geiger.snapshot (App.to_geiger (App.config_of g) s) now in
  match App.snapshot s now with
  | Some a =>
      Py.int_of_float (Geiger.snap_elapsed snap) = Some (App.snap_seconds a) /\
      App.snap_total a = Geiger.snap_total snap /\
      App.snap_elapsed a = Geiger.snap_elapsed snap /\
      App.snap_last_age a = Geiger.snap_last_age snap /\
      App.snap_per_second a = Geiger.snap_per_second snap /\
      App.snap_running_mean a = Geiger.snap_running_mean snap /\
      App.snap_rate_bq a = Geiger.snap_rate_bq snap /\
      App.snap_rate_err a = Geiger.snap_rate_err snap /\
      App.snap_deltas a = Geiger.snap_deltas snap
  | None => Py.int_of_float (Geiger.snap_elapsed snap) = None
  end.
Proof.
  unfold App.snapshot, Geiger.snapshot. simpl.
  destruct (0 <? Py.max 0 (now - App.t0 s))%float; simpl;
    by destruct (Py.int_of_float (Py.max 0 (now - App.t0 s))).
Qed.

End AppState.

(** ** Properties of the start of the pulse source *)

Section StartProperties.

(** C6, as the code has it. [start_geiger_reader] of app.py lets no Exception
    out: when a step of the hardware acquisition raises one, it prints a
    warning and starts the synthetic source. [GeigerReader.start] of
    geiger.py has no such fallback: it starts the synthetic source only when
    [cfg.mock] is set, and otherwise a failure of [setmode], of [setup] or of
    the registration of the edge detection leaves the call as an
    exception. *)
Theorem start_falls_back_in_app_only :
  (forall g hw e,
     App.MOCK g = false -> App.acquire g hw = inl e -> Py.is_Exception e = true ->
     App.start_geiger_reader g hw
     = (None,
        [App.Printed "WARNING: No se pudo iniciar GPIO real. Activando mock.";
         App.Printed ("Detalle: " +:+ Py.str e);
         App.EnvironSet "GEIGER_MOCK" "1";
         App.MockThreadStarted (App.MOCK_RATE g)])) /\
  (forall g hw e effects,
     App.start_geiger_reader g hw = (Some e, effects) -> Py.is_Exception e = false) /\
  (forall gpio self e,
     Reader._started self = false -> Geiger.mock (Reader.rcfg self) = false ->
     Reader.suppress (Reader.cleanup gpio) = None ->
     Reader.setmode gpio = None -> Reader.setup gpio = None ->
     Reader.suppress (Reader.remove_event_detect gpio) = None ->
     Reader.add_event_detect gpio = Some e -> Py.is_RuntimeError e = true ->
     Reader.start gpio self
     = (Some (Py.RuntimeError
                ("Failed to add edge detection on GPIO"
                 +:+ pretty (Geiger.pin (Reader.rcfg self)))),
        {| Reader.rcfg := Reader.rcfg self; Reader._started := true |}, [])) /\
  (forall gpio self e,
     Reader._started self = false -> Geiger.mock (Reader.rcfg self) = false ->
     Reader.suppress (Reader.cleanup gpio) = None ->
     Reader.setmode gpio = Some e \/ (Reader.setmode gpio = None /\ Reader.setup gpio = Some e) ->
     Reader.start gpio self
     = (Some e, {| Reader.rcfg := Reader.rcfg self; Reader._started := true |}, [])) /\
  (forall gpio self rate,
     Geiger.mock (Reader.rcfg self) = false ->
     Reader.MockThreadStarted rate ∉ (Reader.start gpio self).2).
Proof.
  repeat split.
  - intros g hw e Hm Ha He. unfold App.start_geiger_reader. by rewrite Hm, Ha, He.
  - intros g hw e effects. unfold App.start_geiger_reader.
    destruct (App.MOCK g); [done|].
    destruct (App.acquire g hw) as [e'|]; [|done].
    destruct (Py.is_Exception e') eqn:He; [done|]. by intros [= <- _].
  - intros gpio self e Hs Hm Hc Hsm Hsu Hr Ha He. unfold Reader.start.
    rewrite Hs. simpl. by rewrite Hm, Hc, Hsm, Hsu, Hr, Ha, He.
  - intros gpio self e Hs Hm Hc [Hsm|[Hsm Hsu]]; unfold Reader.start;
      rewrite Hs; simpl; by rewrite Hm, Hc, ?Hsm, ?Hsu.
  - intros gpio self rate Hm. unfold Reader.start.
    destruct (Reader._started self); [apply not_elem_of_nil|]. simpl. rewrite Hm.
    destruct (Reader.suppress (Reader.cleanup gpio)); [apply not_elem_of_nil|].
    destruct (Reader.setmode gpio); [apply not_elem_of_nil|].
    destruct (Reader.setup gpio); [apply not_elem_of_nil|].
    destruct (Reader.suppress (Reader.remove_event_detect gpio)); [apply not_elem_of_nil|].
    destruct (Reader.add_event_detect gpio) as [e|].
    + destruct (Py.is_RuntimeError e); apply not_elem_of_nil.
    + simpl. destruct (Geiger.verbose (Reader.rcfg self));
        rewrite ?not_elem_of_cons; repeat split; try done; apply not_elem_of_nil.
Qed.

Lemma start_falls_back_in_app_only_witness :
  App.start_geiger_reader default_settings gpiozero_missing
  = (None,
     [App.Printed "WARNING: No se pudo iniciar GPIO real. Activando mock.";
      App.Printed "Detalle: No module named gpiozero";
      App.EnvironSet "GEIGER_MOCK" "1";
      App.MockThreadStarted 5]) /\
  Reader.start gpio_busy {| Reader.rcfg := Geiger.default_config; Reader._started := false |}
  = (Some (Py.RuntimeError "Failed to add edge detection on GPIO18"),
     {| Reader.rcfg := Geiger.default_config; Reader._started := true |}, []).
Proof.
  destruct start_falls_back_in_app_only as (Happ & _ & Hreader & _).
  split.
  - exact (Happ default_settings gpiozero_missing _ eq_refl eq_refl eq_refl).
  - exact (Hreader gpio_busy
             {| Reader.rcfg := Geiger.default_config; Reader._started := false |} _
             eq_refl eq_refl eq_refl eq_refl eq_refl eq_refl eq_refl eq_refl).
Defined.

(** C6 as stated fails for [GeigerReader.start]: when the edge detection
    cannot be registered, the call ends in a RuntimeError and no synthetic
    source is started. *)
Lemma reader_start_propagates :
  Reader.start gpio_busy {| Reader.rcfg := Geiger.default_config; Reader._started := false |}
  = (Some (Py.RuntimeError "Failed to add edge detection on GPIO18"),
     {| Reader.rcfg := Geiger.default_config; Reader._started := true |}, []).
Proof. by vm_compute. Qed.

End StartProperties.

(** ** The aggregator against the full history of a run *)

Section History.
Import Geiger.
Implicit Types (s : GeigerState) (c : GeigerConfig) (ts now : float).

Lemma pulses_since_reset_snoc ops o :
  pulses_since_reset (ops ++ [o]) = history_step (pulses_since_reset ops) o.
Proof. unfold pulses_since_reset. by rewrite foldl_app. Qed.

Lemma bins_snoc ops o : bins (ops ++ [o]) = bin_step (bins ops) o.
Proof. unfold bins. by rewrite foldl_app. Qed.

Lemma diffs_snoc (l : list float) (t : float) :
  diffs (l ++ [t])
  = diffs l ++ match last l with Some a => [(t - a)%float] | None => [] end.
Proof.
  induction l as [|a [|b l] IH]; [done..|].
  change (diffs ((a :: b :: l) ++ [t])) with ((b - a)%float :: diffs ((b :: l) ++ [t])).
  rewrite IH. done.
Qed.

Lemma newest_snoc {A : Type} (n : nat) (l : list A) (x : A) :
  (0 < n)%nat -> newest n (newest n l ++ [x]) = newest n (l ++ [x]).
Proof.
  intros Hn. unfold newest.
  rewrite <- (drop_app_le l [x]) by lia.
  rewrite drop_drop. f_equal.
  rewrite length_drop, !length_app. simpl. lia.
Qed.

(** The state after a run, read off the history of the run. *)
Lemma run_history c now ops :
  let s := run (init c now) ops in
  let h := pulses_since_reset ops in
  total s = Z.of_nat (length h) /\
  last_ts s = last h /\
  _current_second_count s = (bins ops).2 /\
  (1 <= max_deltas c ->
   deltas s = newest (Z.to_nat (max_deltas c)) (filter (fun d => nonneg d = true) (diffs h))) /\
  (1 <= max_series c ->
   per_second s = newest (Z.to_nat (max_series c)) (bins ops).1).
Proof.
  induction ops as [|o ops IH] using rev_ind; [by repeat split|].
  simpl in IH. destruct IH as (Ht & Hl & Hc & Hd & Hp).
  rewrite run_snoc, pulses_since_reset_snoc, bins_snoc. cbv zeta.
  set (s := run (init c now) ops) in *.
  assert (Hcfg : cfg s = c) by apply cfg_run.
  destruct o as [ts| |now']; simpl step; simpl history_step; simpl bin_step.
  - split; [rewrite total_step_pulse, Ht, length_app; simpl; lia|].
    split; [by rewrite last_snoc|].
    split; [simpl; by rewrite Hc|].
    split; [|exact Hp].
    intros Hcap. rewrite diffs_snoc, filter_app, <- Hl.
    destruct (last_ts s) as [a|] eqn:Ea.
    + destruct (0 <=? ts - a)%float eqn:Edt.
      * rewrite (on_pulse_deltas_append s ts a Ea Edt), Hcfg, trimmed_newest, Hd by done.
        rewrite filter_cons_True by done. simpl filter.
        apply newest_snoc. lia.
      * rewrite (on_pulse_deltas_skip s ts a Ea Edt), Hd by done.
        rewrite filter_cons_False by (unfold nonneg; by rewrite Edt).
        by rewrite filter_nil, app_nil_r.
    + rewrite on_pulse_deltas_first, Hd by done. by rewrite filter_nil, app_nil_r.
  - split; [exact Ht|]. split; [exact Hl|]. split; [done|]. split; [exact Hd|].
    intros Hcap. rewrite tick_second_per_second, Hcfg, trimmed_newest, Hp, Hc by done.
    apply newest_snoc. lia.
  - by repeat split.
Qed.

(** X1. In every state reached from a new aggregator, [total] is the number
    of pulses since the last [reset] and [last_ts] is the timestamp of the
    latest of them; so [last_ts] is [None] exactly when [total] is 0. *)
Theorem total_and_last_ts_follow_pulses c now ops :
  let s := run (init c now) ops in
  total s = Z.of_nat (length (pulses_since_reset ops)) /\
  last_ts s = last (pulses_since_reset ops) /\
  (last_ts s = None <-> total s = 0).
Proof.
  destruct (run_history c now ops) as (Ht & Hl & _). cbv zeta.
  split; [done|]. split; [done|].
  rewrite Ht, Hl, last_None.
  destruct (pulses_since_reset ops); simpl; split; intros; try done; lia.
Qed.

Lemma nondecreasing_diffs (h : list float) :
  Forall (fun t => is_finite t = true) h -> nondecreasing h = true ->
  filter (fun d => nonneg d = true) (diffs h) = diffs h.
Proof.
  induction h as [|a [|b h] IH]; [done..|].
  intros Hf Ho. apply Forall_cons in Hf as [Ha Hf].
  simpl in Ho. apply andb_prop in Ho as [Hab Ho].
  change (diffs (a :: b :: h)) with ((b - a)%float :: diffs (b :: h)).
  rewrite filter_cons_True.
  - f_equal. by apply IH.
  - unfold nonneg. apply Forall_cons in Hf as [Hb _]. by rewrite sub_nonneg.
Qed.

(** X2. With [max_deltas >= 1], [deltas] holds the newest [max_deltas] of
    the differences between consecutive pulses since the last [reset] that
    pass the test [dt >= 0]; for finite, non-decreasing timestamps these are
    all the differences. *)
Theorem deltas_are_newest_differences c now ops :
  1 <= max_deltas c ->
  let s := run (init c now) ops in
  let h := pulses_since_reset ops in
  deltas s = newest (Z.to_nat (max_deltas c)) (filter (fun d => nonneg d = true) (diffs h)) /\
  (Forall (fun t => is_finite t = true) h -> nondecreasing h = true ->
   deltas s = newest (Z.to_nat (max_deltas c)) (diffs h)).
Proof.
  intros Hc s h. destruct (run_history c now ops) as (_ & _ & _ & Hd & _).
  split; [by apply Hd|].
  intros Hf Ho. rewrite <- (nondecreasing_diffs h Hf Ho). by apply Hd.
Qed.

Lemma deltas_are_newest_differences_witness :
  deltas (run (init (with_capacities 2 5) 0)
            [OnPulse 9; Reset 10; OnPulse 11; OnPulse 12.5; TickSecond; OnPulse 12; OnPulse 16; OnPulse 17])
  = [4; 1]%float.
Proof.
  pose proof (deltas_are_newest_differences (with_capacities 2 5) 0
    [OnPulse 9; Reset 10; OnPulse 11; OnPulse 12.5; TickSecond; OnPulse 12; OnPulse 16; OnPulse 17]
    ltac:(simpl; lia)) as [H _].
  rewrite H. reflexivity.
Defined.

Lemma Forall_trimmed {A : Type} (P : A -> Prop) (cap : Z) (l : list A) :
  Forall P l -> Forall P (trimmed cap l).
Proof.
  intros H. destruct (trimmed_suffix cap l) as [k Hk].
  rewrite Hk in H. by apply Forall_app in H as [_ H].
Qed.

(** X3. Whatever the capacities and the timestamps, every entry of [deltas]
    passes the test [dt >= 0]: there is no negative delta and no NaN in the
    buffer. *)
Theorem deltas_never_negative c now ops :
  Forall (fun d => (0 <=? d)%float = true) (deltas (run (init c now) ops)).
Proof.
  induction ops as [|o ops IH] using rev_ind; [by constructor|].
  rewrite run_snoc. set (s := run (init c now) ops) in *.
  destruct o as [ts| |now']; simpl step; [|done|by constructor].
  destruct (last_ts s) as [a|] eqn:Ea.
  - destruct (0 <=? ts - a)%float eqn:Edt.
    + rewrite (on_pulse_deltas_append s ts a Ea Edt).
      apply Forall_trimmed, Forall_app. split; [done|]. by constructor.
    + by rewrite (on_pulse_deltas_skip s ts a Ea Edt).
  - by rewrite on_pulse_deltas_first.
Qed.

(** X4. With [max_series >= 1], [per_second] holds the counts of the newest
    [max_series] closed seconds since the last [reset], each the number of
    pulses between two ticks, and the open-bin counter is the number of
    pulses since the last tick. *)
Theorem per_second_is_newest_bins c now ops :
  1 <= max_series c ->
  let s := run (init c now) ops in
  per_second s = newest (Z.to_nat (max_series c)) (bins ops).1 /\
  _current_second_count s = (bins ops).2.
Proof.
  intros Hc s. destruct (run_history c now ops) as (_ & _ & Hcur & _ & Hp).
  split; [by apply Hp|done].
Qed.

Lemma per_second_is_newest_bins_witness :
  let s := run (init (with_capacities 5 2) 0)
             [OnPulse 0; TickSecond; OnPulse 1; TickSecond; OnPulse 2; OnPulse 2; TickSecond; OnPulse 3] in
  per_second s = [1; 2] /\ _current_second_count s = 1.
Proof.
  pose proof (per_second_is_newest_bins (with_capacities 5 2) 0
    [OnPulse 0; TickSecond; OnPulse 1; TickSecond; OnPulse 2; OnPulse 2; TickSecond; OnPulse 3]
    ltac:(simpl; lia)) as [Hp Hc].
  split; [rewrite Hp|rewrite Hc]; reflexivity.
Defined.

Lemma sumZ_snoc (l : list Z) (x : Z) : sumZ (l ++ [x]) = sumZ l + x.
Proof. unfold sumZ. induction l; simpl; lia. Qed.

Lemma bins_count ops :
  Forall (fun n => 0 <= n) (bins ops).1 /\ 0 <= (bins ops).2 /\
  sumZ (bins ops).1 + (bins ops).2 = Z.of_nat (length (pulses_since_reset ops)).
Proof.
  induction ops as [|o ops (Hf & Hc & Hs)] using rev_ind; [by repeat split|].
  rewrite bins_snoc, pulses_since_reset_snoc.
  destruct o as [ts| |now']; simpl.
  - split; [done|]. split; [lia|]. rewrite length_app. simpl. lia.
  - split; [apply Forall_app; split; [done|by constructor]|]. split; [lia|].
    rewrite sumZ_snoc. lia.
  - by repeat split.
Qed.

Lemma sumZ_suffix (l1 l2 : list Z) :
  Forall (fun n => 0 <= n) l2 -> l1 `suffix_of` l2 ->
  Forall (fun n => 0 <= n) l1 /\ sumZ l1 <= sumZ l2.
Proof.
  intros Hf [k ->]. apply Forall_app in Hf as [Hk Hl]. split; [done|].
  induction Hk; simpl; [lia|]. unfold sumZ in *. simpl. lia.
Qed.

(** X5. No pulse is counted twice and none is lost at a tick: in every
    reachable state the counts are not negative and the closed seconds
    together with the open one account for at most [total]; they account for
    exactly [total] as long as no more than [max_series] seconds have been
    closed since the last [reset]. *)
Theorem no_pulse_lost_at_tick c now ops :
  let s := run (init c now) ops in
  0 <= _current_second_count s /\
  Forall (fun n => 0 <= n) (per_second s) /\
  sumZ (per_second s) + _current_second_count s <= total s /\
  (Z.of_nat (length (bins ops).1) <= max_series c ->
   sumZ (per_second s) + _current_second_count s = total s).
Proof.
  cbv zeta. split; [|split; [|split]].
  - destruct (run_history c now ops) as (_ & _ & -> & _). apply bins_count.
  - induction ops as [|o ops IH] using rev_ind; [by constructor|].
    rewrite run_snoc. destruct o as [ts| |now']; simpl step; [done| |by constructor].
    rewrite tick_second_per_second. apply Forall_trimmed, Forall_app. split; [done|].
    constructor; [|done].
    destruct (run_history c now ops) as (_ & _ & -> & _). apply bins_count.
  - induction ops as [|o ops IH] using rev_ind; [done|].
    rewrite run_snoc. set (s := run (init c now) ops) in *.
    destruct o as [ts| |now']; simpl step; [simpl; lia| |done].
    assert (Hcur : 0 <= _current_second_count s).
    { subst s. destruct (run_history c now ops) as (_ & _ & -> & _). apply bins_count. }
    assert (Hps : Forall (fun n => 0 <= n) (per_second s ++ [_current_second_count s])).
    { apply Forall_app. split; [|by repeat constructor].
      subst s. clear IH Hcur.
      induction ops as [|o ops IH] using rev_ind; [by constructor|].
      rewrite run_snoc. destruct o as [ts| |now']; simpl step; [done| |by constructor].
      rewrite tick_second_per_second. apply Forall_trimmed, Forall_app. split; [done|].
      constructor; [|done].
      destruct (run_history c now ops) as (_ & _ & -> & _). apply bins_count. }
    destruct (sumZ_suffix _ _ Hps (trimmed_suffix (max_series (cfg s)) _)) as [_ Hle].
    rewrite tick_second_per_second. rewrite sumZ_snoc in Hle. simpl. lia.
  - destruct (run_history c now ops) as (Ht & _ & Hcur & _).
    destruct (bins_count ops) as (_ & _ & Hsum).
    rewrite Ht, Hcur, <- Hsum. intros Hlen. do 2 f_equal.
    clear Ht Hcur Hsum. revert Hlen.
    induction ops as [|o ops IH] using rev_ind; [done|].
    rewrite run_snoc, bins_snoc. destruct o as [ts| |now']; simpl; [done| |done].
    rewrite length_app. simpl. intros Hlen.
    rewrite IH by lia. destruct (run_history c now ops) as (_ & _ & -> & _).
    rewrite cfg_run. apply trimmed_fits. rewrite length_app. simpl. lia.
Qed.

End History.

(** ** Snapshots of quiet and of clock-shifted aggregators *)

Section SnapshotEdges.
Import Geiger.
Implicit Types (s : GeigerState) (c : GeigerConfig) (ts now : float).

Lemma SFsub_compare_eq (x y : spec_float) :
  valid_binary x = true -> valid_binary y = true ->
  SFcompare x y = Some Eq ->
  SFltb (S754_zero false) (SF64sub x y) = false.
Proof.
  intros Vx Vy H.
  destruct x as [sx|sx| |sx mx ex], y as [sy|sy| |sy my ey];
    try (simpl in H; try done;
         by repeat match goal with s : bool |- _ => destruct s end).
  simpl in Vx, Vy.
  rewrite SFcompare_exact_diff, exact_diff_opp in H by done.
  assert (H' : (0 ?= - exact_diff sx mx ex sy my ey) = Eq) by congruence.
  apply Z.compare_eq_iff in H'.
  unfold SFltb, SF64sub, SFsub.
  rewrite binary_normalize_compare by (apply bounded_inv in Vx, Vy; lia).
  change (match 0 ?= exact_diff sx mx ex sy my ey with Lt => true | _ => false end = false).
  replace (exact_diff sx mx ex sy my ey) with 0 by lia. done.
Qed.

(** A reading that does not compare above the start gives a difference that
    is not positive: this holds for all floats. *)
Lemma sub_not_pos (x y : float) : (x <=? y)%float = true -> (0 <? x - y)%float = false.
Proof.
  rewrite FloatAxioms.leb_spec, FloatAxioms.ltb_spec, sub_spec. unfold SFleb.
  change (Prim2SF 0) with (S754_zero false).
  destruct (SFcompare (Prim2SF x) (Prim2SF y)) as [[]|] eqn:E; try done; intros _.
  - by apply SFsub_compare_eq; auto using Prim2SF_valid.
  - unfold SFltb. by rewrite SFsub_compare_lt by auto using Prim2SF_valid.
Qed.

(** Zero counts give a zero rate: [0 / elapsed] is [0.0] for every positive
    [elapsed], the infinite one included. *)
Lemma zero_div_pos (e : float) : (0 <? e)%float = true -> (Py.float_of_int 0 / e)%float = 0%float.
Proof.
  intros H. apply Prim2SF_inj. rewrite div_spec.
  change (Prim2SF (Py.float_of_int 0)) with (S754_zero false).
  change (Prim2SF 0) with (S754_zero false).
  revert H. rewrite FloatAxioms.ltb_spec. change (Prim2SF 0) with (S754_zero false).
  unfold SFltb. by destruct (Prim2SF e) as [[]|[]| |[] m x].
Qed.

Lemma snap_rate_no_pulse s now :
  total s = 0 ->
  snap_rate_bq (snapshot s now) = 0%float /\ snap_rate_err (snapshot s now) = 0%float.
Proof.
  intros Ht. destruct (0 <? snap_elapsed (snapshot s now))%float eqn:E.
  - destruct (snapshot_rate_pos s now E) as [-> ->]. rewrite Ht.
    split; [by apply zero_div_pos|done].
  - by apply snapshot_rate_zero.
Qed.

Lemma prefix_means_zeros (series : list Z) (i : positive) :
  Forall (fun n => n = 0) series ->
  prefix_means series i 0 = replicate (length series) 0%float.
Proof.
  intros H. revert i. induction H as [|n series -> _ IH]; intros i; [done|].
  simpl. by rewrite IH.
Qed.

Lemma ticks_only_state s t (k : nat) :
  let s' := run (reset s t) (replicate k TickSecond) in
  total s' = 0 /\ last_ts s' = None /\ deltas s' = [] /\ t0 s' = t /\
  _current_second_count s' = 0 /\ Forall (fun n => n = 0) (per_second s').
Proof.
  induction k as [|k (Ht & Hl & Hd & H0 & Hc & Hp)]; [by repeat split|].
  rewrite replicate_S_end, run_snoc. simpl step. repeat split; try done.
  rewrite tick_second_per_second. apply Forall_trimmed, Forall_app.
  split; [done|]. by repeat constructor.
Qed.

(** X6. An aggregator without a pulse since its [reset], however many seconds
    have been closed, gives the quiet snapshot at every clock reading:
    [total = 0], no [last_age], no deltas, a rate and an error of exactly
    [0.0], and a zero count and a zero running mean for every recorded
    second. *)
Theorem quiet_snapshot s t (k : nat) now :
  let snap := snapshot (run (reset s t) (replicate k TickSecond)) now in
  snap_total snap = 0 /\
  snap_elapsed snap = Py.max 0 (now - t) /\
  snap_last_age snap = None /\
  snap_deltas snap = [] /\
  snap_rate_bq snap = 0%float /\
  snap_rate_err snap = 0%float /\
  snap_per_second snap = replicate (length (snap_per_second snap)) 0 /\
  snap_running_mean snap = replicate (length (snap_per_second snap)) 0%float.
Proof.
  destruct (ticks_only_state s t k) as (Ht & Hl & Hd & H0 & Hc & Hp). cbv zeta.
  set (s' := run (reset s t) (replicate k TickSecond)) in *.
  destruct (snap_rate_no_pulse s' now Ht) as [Hr He].
  assert (Hps : snap_per_second (snapshot s' now) = per_second s').
  { unfold snapshot. by destruct (0 <? Py.max 0 (now - t0 s'))%float. }
  assert (Hds : snap_deltas (snapshot s' now) = deltas s').
  { unfold snapshot. by destruct (0 <? Py.max 0 (now - t0 s'))%float. }
  rewrite snap_total_eq, snap_elapsed_eq, snap_last_age_eq, snap_running_mean_eq,
    Hps, Hds, Ht, Hl, Hd, H0, Hr, He.
  repeat split; try done.
  - clear -Hp. induction Hp as [|n l -> _ IH]; [done|]. simpl. by rewrite <- IH.
  - by apply prefix_means_zeros.
Qed.

(** X7. [elapsed] is never negative and never NaN; when the clock does not
    read later than the session start (it stands still or was set back), the
    snapshot reports [elapsed = 0.0], [rate = 0.0] and [rate_err = 0.0],
    whatever [total] is. *)
Theorem elapsed_clamped_at_zero s now :
  (0 <=? snap_elapsed (snapshot s now))%float = true /\
  ((now <=? t0 s)%float = true ->
   snap_elapsed (snapshot s now) = 0%float /\
   snap_rate_bq (snapshot s now) = 0%float /\
   snap_rate_err (snapshot s now) = 0%float).
Proof.
  split; [apply snap_elapsed_nonneg|].
  intros Hle.
  assert (He : snap_elapsed (snapshot s now) = 0%float).
  { rewrite snap_elapsed_eq. unfold Py.max. by rewrite sub_not_pos. }
  split; [done|]. apply snapshot_rate_zero. by rewrite He.
Qed.

Lemma elapsed_clamped_at_zero_witness :
  let s := run (init default_config 1000) [OnPulse 1001; OnPulse 1002] in
  snap_elapsed (snapshot s 990) = 0%float /\ snap_rate_bq (snapshot s 990) = 0%float.
Proof.
  pose proof (elapsed_clamped_at_zero
                (run (init default_config 1000) [OnPulse 1001; OnPulse 1002]) 990) as [_ H].
  destruct (H eq_refl) as (He & Hr & _). by split.
Defined.

End SnapshotEdges.

(** ** app.py: its state class against the one of geiger.py *)

Section AppHistory.
Implicit Types (s : App.GeigerState) (g : App.Settings) (ts now : float).

Lemma app_run_snoc g s ops o : App.run g s (ops ++ [o]) = App.step g (App.run g s ops) o.
Proof. unfold App.run. by rewrite foldl_app. Qed.

(** X8. The state class of app.py is the one of geiger.py with one more
    buffer: along every run of [on_pulse], [tick_second] and [reset] the two
    hold the same [t0], [total], [last_ts], [deltas], [per_second] and
    open-bin counter, and a snapshot of app.py, when [int(elapsed)] does not
    raise, reports the same values under the keys they share. *)
Theorem app_state_matches_geiger g s ops now :
  App.to_geiger (App.config_of g) (App.run g s ops)
  = Geiger.run (App.to_geiger (App.config_of g) s) ops /\
  match App.snapshot (App.run g s ops) now with
  | Some a =>
      let snap := Geiger.snapshot (Geiger.run (App.to_geiger (App.config_of g) s) ops) now in
      App.snap_total a = Geiger.snap_total snap /\
      App.snap_elapsed a = Geiger.snap_elapsed snap /\
      App.snap_last_age a = Geiger.snap_last_age snap /\
      App.snap_per_second a = Geiger.snap_per_second snap /\
      App.snap_running_mean a = Geiger.snap_running_mean snap /\
      App.snap_rate_bq a = Geiger.snap_rate_bq snap /\
      App.snap_rate_err a = Geiger.snap_rate_err snap /\
      App.snap_deltas a = Geiger.snap_deltas snap /\
      Py.int_of_float (App.snap_elapsed a) = Some (App.snap_seconds a)
  | None => Py.int_of_float (Py.max 0 (now - App.t0 (App.run g s ops))) = None
  end.
Proof.
  split; [apply app_run|].
  pose proof (app_snapshot g (App.run g s ops) now) as H. simpl in H.
  rewrite app_run in H.
  destruct (App.snapshot (App.run g s ops) now) as [a|].
  - cbv zeta. destruct H as (Hs & Ht & He & Hl & Hp & Hm & Hr & Hre & Hd).
    repeat split; try done. by rewrite He.
  - rewrite snap_elapsed_eq in H. rewrite <- (app_run g ops s) in H. exact H.
Qed.

(** X9. With [MAX_DELTAS >= 1], [timestamps] of app.py holds the newest
    [2 * MAX_DELTAS] timestamps of the pulses since the last [reset]: it is
    never longer than that, and its last entry is [last_ts]. *)
Theorem app_timestamps_are_newest_pulses g now ops :
  1 <= App.MAX_DELTAS g ->
  let s := App.run g (App.reset now) ops in
  App.timestamps s
  = newest (Z.to_nat (App.MAX_DELTAS g * 2)) (pulses_since_reset ops) /\
  Z.of_nat (length (App.timestamps s)) <= App.MAX_DELTAS g * 2 /\
  last (App.timestamps s) = App.last_ts s.
Proof.
  intros Hc. cbv zeta.
  assert (H : App.timestamps (App.run g (App.reset now) ops)
              = newest (Z.to_nat (App.MAX_DELTAS g * 2)) (pulses_since_reset ops) /\
              App.last_ts (App.run g (App.reset now) ops) = last (pulses_since_reset ops)).
  { induction ops as [|o ops [IHt IHl]] using rev_ind; [done|].
    rewrite app_run_snoc, pulses_since_reset_snoc.
    destruct o as [ts| |now']; simpl; [|done|done].
    split; [|by rewrite last_snoc].
    replace (- App.MAX_DELTAS g * 2) with (- (App.MAX_DELTAS g * 2)) by lia.
    change (trimmed (App.MAX_DELTAS g * 2)
              (App.timestamps (App.run g (App.reset now) ops) ++ [ts])
            = newest (Z.to_nat (App.MAX_DELTAS g * 2)) (pulses_since_reset ops ++ [ts])).
    rewrite trimmed_newest, IHt by lia. apply newest_snoc. lia. }
  destruct H as [Ht Hl]. split; [done|]. split.
  - rewrite Ht, newest_length. lia.
  - rewrite Ht, Hl.
    destruct (pulses_since_reset ops) as [|t h _] using rev_ind; [done|].
    rewrite last_snoc. apply newest_last. lia.
Qed.

Lemma app_timestamps_are_newest_pulses_witness :
  App.timestamps
    (App.run {| App.PIN := 18; App.PULL_UP := false; App.MOCK := false;
                App.MOCK_RATE := 5%float; App.MAX_DELTAS := 1; App.MAX_SERIES := 3 |}
       (App.reset 0)
       [Geiger.OnPulse 1; Geiger.TickSecond; Geiger.OnPulse 2; Geiger.OnPulse 3])
  = [2; 3]%float.
Proof.
  pose proof (app_timestamps_are_newest_pulses
    {| App.PIN := 18; App.PULL_UP := false; App.MOCK := false;
       App.MOCK_RATE := 5%float; App.MAX_DELTAS := 1; App.MAX_SERIES := 3 |} 0
    [Geiger.OnPulse 1; Geiger.TickSecond; Geiger.OnPulse 2; Geiger.OnPulse 3]
    ltac:(simpl; lia)) as [H _].
  rewrite H. reflexivity.
Defined.

End AppHistory.

(** ** The pulse source: start, stop and the mock rate *)

Section SourceProperties.

(** [start] marks the reader started on every path, the raising ones
    included. *)
Lemma start_marks_started (gpio : Reader.GPIO) (self : Reader.GeigerReader) :
  Reader._started (Reader.start gpio self).1.2 = true.
Proof.
  unfold Reader.start.
  destruct (Reader._started self) eqn:Hs; [done|]. simpl.
  repeat match goal with
  | |- context [if ?b then _ else _] => destruct b
  | |- context [match ?o with Some _ => _ | None => _ end] => destruct o
  end; done.
Qed.

(** X10. [GeigerReader.start] runs once: after a first call, whether it
    returned or raised, the reader counts as started, and every later call
    returns at once, without touching RPi.GPIO and without starting
    anything. *)
Theorem start_runs_once (gpio gpio2 : Reader.GPIO) (self : Reader.GeigerReader) :
  let '(_, self', _) := Reader.start gpio self in
  Reader._started self' = true /\
  Reader.rcfg self' = Reader.rcfg self /\
  Reader.start gpio2 self' = (None, self', []).
Proof.
  unfold Reader.start at 1.
  destruct (Reader._started self) eqn:Hs.
  { repeat split; try done. unfold Reader.start. by rewrite Hs. }
  simpl.
  repeat match goal with
  | |- context [if ?b then _ else _] => destruct b
  | |- context [match ?o with Some _ => _ | None => _ end] => destruct o
  end; by repeat split.
Qed.

(** X11. A first call of [GeigerReader.start] that returns has installed
    exactly one pulse source: the mock thread when [cfg.mock] is set, the
    edge detection otherwise; a call that raises has installed none. *)
Theorem start_installs_one_source (gpio : Reader.GPIO) (self : Reader.GeigerReader) :
  Reader._started self = false ->
  let '(raised, _, effects) := Reader.start gpio self in
  match raised with
  | None =>
      filter (fun e => is_source e = true) effects
      = [if Geiger.mock (Reader.rcfg self)
         then Reader.MockThreadStarted (Geiger.mock_rate (Reader.rcfg self))
         else Reader.EdgeDetectAdded (Geiger.pin (Reader.rcfg self))]
  | Some _ => effects = []
  end.
Proof.
  intros Hs. unfold Reader.start. rewrite Hs. simpl.
  destruct (Geiger.mock (Reader.rcfg self)).
  { unfold Reader._start_mock. simpl. by destruct (Geiger.verbose (Reader.rcfg self)). }
  destruct (Reader.suppress (Reader.cleanup gpio)); [done|].
  destruct (Reader.setmode gpio); [done|].
  destruct (Reader.setup gpio); [done|].
  destruct (Reader.suppress (Reader.remove_event_detect gpio)); [done|].
  destruct (Reader.add_event_detect gpio) as [e|].
  - by destruct (Py.is_RuntimeError e).
  - by destruct (Geiger.verbose (Reader.rcfg self)).
Qed.

Lemma start_installs_one_source_witness :
  let '(raised, _, effects) :=
    Reader.start gpio_busy
      {| Reader.rcfg := {| Geiger.pin := 18; Geiger.verbose := true; Geiger.mock := true;
                            Geiger.mock_rate := 5%float; Geiger.max_deltas := 2000;
                            Geiger.max_series := 3600 |};
         Reader._started := false |} in
  raised = None /\
  filter (fun e => is_source e = true) effects = [Reader.MockThreadStarted 5].
Proof.
  pose proof (start_installs_one_source gpio_busy
      {| Reader.rcfg := {| Geiger.pin := 18; Geiger.verbose := true; Geiger.mock := true;
                            Geiger.mock_rate := 5%float; Geiger.max_deltas := 2000;
                            Geiger.max_series := 3600 |};
         Reader._started := false |} eq_refl) as H.
  destruct (Reader.start gpio_busy _) as [[raised self'] effects] eqn:E.
  vm_compute in E. injection E as <- <- <-. split; [done|]. exact H.
Defined.

(** X12. The rate that the mock loops hand to [random.expovariate] is at
    least 0.0001 for every configured [mock_rate]: it is never zero, never
    negative and never NaN, and it is [mock_rate] itself when that is above
    0.0001. *)
Theorem mock_lambda_at_least (mock_rate : float) :
  (0x1.a36e2eb1c432dp-14 <=? Source.mock_lambda mock_rate)%float = true /\
  (0 <? Source.mock_lambda mock_rate)%float = true /\
  is_nan (Source.mock_lambda mock_rate) = false /\
  ((0x1.a36e2eb1c432dp-14 <? mock_rate)%float = true ->
   Source.mock_lambda mock_rate = mock_rate).
Proof.
  unfold Source.mock_lambda, Py.max.
  destruct (0x1.a36e2eb1c432dp-14 <? mock_rate)%float eqn:E; [|by repeat split].
  revert E. unfold is_nan.
  rewrite !FloatAxioms.ltb_spec, FloatAxioms.leb_spec, FloatAxioms.eqb_spec.
  change (Prim2SF 0) with (S754_zero false).
  set (c := Prim2SF 0x1.a36e2eb1c432dp-14). vm_compute in c. subst c.
  unfold SFltb, SFleb, SFeqb.
  destruct (Prim2SF mock_rate) as [[]|[]| |[] m e]; simpl; try done.
  intros H. repeat split; try done.
  - revert H. repeat case_match; done.
  - by rewrite Z.compare_refl, Pos.compare_cont_refl.
Qed.

Lemma mock_lambda_at_least_witness :
  Source.mock_lambda 5 = 5%float /\ Source.mock_lambda 0 = 0x1.a36e2eb1c432dp-14%float /\
  Source.mock_lambda (-3) = 0x1.a36e2eb1c432dp-14%float /\
  Source.mock_lambda nan = 0x1.a36e2eb1c432dp-14%float.
Proof.
  split; [|by vm_compute].
  by apply (mock_lambda_at_least 5).
Defined.

(** X13. [GeigerReader.stop] always sets the stop event, lets no Exception
    out of its two calls into RPi.GPIO, and leaves the reader started: a
    stopped reader that had been started cannot be started again, [start]
    returns at once. *)
Theorem stop_is_quiet_and_final {Callback : Type} (gpio gpio2 : Reader.GPIO)
    (self : Source.GeigerReader (Callback := Callback)) :
  let '(raised, self') := Source.stop gpio self in
  Source._stop self' = true /\
  Source.core self' = Source.core self /\
  (forall e, raised = Some e -> Py.is_Exception e = false) /\
  (Py.is_Exception <$> Reader.remove_event_detect gpio <> Some false ->
   Py.is_Exception <$> Reader.cleanup gpio <> Some false -> raised = None) /\
  (Reader._started (Source.core self) = true ->
   Source.start gpio2 self' = (None, self', [])).
Proof.
  unfold Source.stop, Reader.suppress.
  destruct (Reader.remove_event_detect gpio) as [e1|];
    [destruct (Py.is_Exception e1) eqn:E1|];
    (destruct (Reader.cleanup gpio) as [e2|];
       [destruct (Py.is_Exception e2) eqn:E2|]); simpl;
    repeat split; try done; try (intros e [= <-]; done);
    try (intros Hs; unfold Source.start, Reader.start; simpl; by rewrite Hs);
    try (intros H1 H2; simpl in H1, H2; congruence).
Qed.

(** X14. [on_startup] of main.py creates the task of [second_loop] only when
    the start of the reader returns: with a reader that is new and not in
    mock mode, a failure of [setmode] leaves the startup as this exception,
    with the loop stored, the callback registered, the reader marked
    started and no pulse source and no ticker; in mock mode the startup
    always returns with the mock thread and the ticker. *)
Theorem main_startup_needs_the_reader (gpio : Reader.GPIO) (p : Main.Process)
    (reader : Source.GeigerReader (Callback := Main.Callback)) :
  let '(raised, p', reader', started) := Main.on_startup gpio p reader in
  Main.MAIN_LOOP p' = Some [] /\
  Main.state p' = Main.state p /\
  Source._on_pulse reader' = Some Main.on_pulse_callback /\
  Reader._started (Source.core reader') = true /\
  (raised = None <-> Main.SecondLoopCreated ∈ started) /\
  (Reader._started (Source.core reader) = false ->
   Geiger.mock (Reader.rcfg (Source.core reader)) = true ->
   raised = None /\
   Main.FromReader (Reader.MockThreadStarted (Geiger.mock_rate (Reader.rcfg (Source.core reader))))
   ∈ started) /\
  (forall e,
     Reader._started (Source.core reader) = false ->
     Geiger.mock (Reader.rcfg (Source.core reader)) = false ->
     Reader.suppress (Reader.cleanup gpio) = None ->
     Reader.setmode gpio = Some e ->
     raised = Some e /\
     forall x, x ∈ started -> x = Main.PrintedStartup).
Proof.
  unfold Main.on_startup, Source.start. simpl.
  pose proof (start_marks_started gpio (Source.core reader)) as Hst.
  destruct (Reader.start gpio (Source.core reader)) as [[raised core'] effects] eqn:E.
  simpl in Hst.
  assert (Hnot : Main.SecondLoopCreated ∉
            (if Geiger.verbose (Geiger.cfg (Main.state p)) then [Main.PrintedStartup] else [])
            ++ map Main.FromReader effects).
  { rewrite elem_of_app. intros [H|H].
    - destruct (Geiger.verbose _); [|by apply elem_of_nil in H].
      by apply list_elem_of_singleton in H.
    - change (map Main.FromReader effects) with (Main.FromReader <$> effects) in H.
      apply list_elem_of_fmap in H as (x & Hx & _). done. }
  assert (Hmock : Reader._started (Source.core reader) = false ->
                  Geiger.mock (Reader.rcfg (Source.core reader)) = true ->
                  raised = None /\
                  Reader.MockThreadStarted (Geiger.mock_rate (Reader.rcfg (Source.core reader)))
                  ∈ effects).
  { intros Hs Hm. unfold Reader.start in E. rewrite Hs in E. simpl in E. rewrite Hm in E.
    injection E as <- <- <-. split; [done|]. unfold Reader._start_mock. simpl.
    apply elem_of_app. right. by apply list_elem_of_singleton. }
  assert (Hfail : forall e, Reader._started (Source.core reader) = false ->
                  Geiger.mock (Reader.rcfg (Source.core reader)) = false ->
                  Reader.suppress (Reader.cleanup gpio) = None ->
                  Reader.setmode gpio = Some e -> raised = Some e /\ effects = []).
  { intros e Hs Hm Hc Hsm. unfold Reader.start in E. rewrite Hs in E. simpl in E.
    rewrite Hm, Hc, Hsm in E. by injection E as <- <- <-. }
  destruct raised as [e|]; simpl.
  - do 4 (split; [done|]). split; [|split].
    + split; [done|]. intros H. by apply Hnot in H.
    + intros Hs Hm. by destruct (Hmock Hs Hm).
    + intros e0 Hs Hm Hc Hsm. destruct (Hfail e0 Hs Hm Hc Hsm) as [[= ->] ->].
      split; [done|]. intros x Hx. simpl in Hx. rewrite app_nil_r in Hx.
      destruct (Geiger.verbose _); [|by apply elem_of_nil in Hx].
      by apply list_elem_of_singleton in Hx.
  - do 4 (split; [done|]). split; [|split].
    + split; [|done]. intros _. rewrite !elem_of_app. right. right.
      by apply list_elem_of_singleton.
    + intros Hs Hm. destruct (Hmock Hs Hm) as [_ Hin]. split; [done|].
      rewrite !elem_of_app. right. left.
      change (map Main.FromReader effects) with (Main.FromReader <$> effects).
      by apply list_elem_of_fmap_2.
    + intros e0 Hs Hm Hc Hsm. by destruct (Hfail e0 Hs Hm Hc Hsm).
Qed.

(** X15. [on_startup] of app.py lets no Exception out, whatever the hardware
    does: whenever it returns it has installed exactly one pulse source (the
    mock thread or one gpiozero handler) and created the task of
    [second_loop], and the loop is stored in every case. *)
Theorem app_startup_always_ticks (g : App.Settings) (hw : App.Gpiozero) (p : AppMain.Process) :
  let '(raised, p', started) := AppMain.on_startup g hw p in
  AppMain.MAIN_LOOP p' = Some [] /\
  AppMain.state p' = AppMain.state p /\
  match raised with
  | Some e => Py.is_Exception e = false /\ started = []
  | None =>
      length (filter (fun x => is_app_source x = true) started) = 1%nat /\
      last started = Some AppMain.SecondLoopCreated
  end.
Proof.
  unfold AppMain.on_startup, App.start_geiger_reader.
  destruct (App.MOCK g); [by repeat split|].
  unfold App.acquire.
  destruct (App.import_gpiozero hw) as [e|];
    [|destruct (App.import_lgpio hw) as [e|];
      [|destruct (App.LGPIOFactory hw) as [e|];
        [|destruct (App.DigitalInputDevice hw) as [e|];
          [|destruct (App.set_handler hw) as [e|]]]]];
    try (destruct (Py.is_Exception e) eqn:He; by repeat split).
  by destruct (App.PULL_UP g); repeat split.
Qed.

End SourceProperties.

(** ** The hub and the glue of main.py *)

Section HubProperties.
Import WS.
Context {Msg Net : Type}.
Variable send_json : WebSocket -> Msg -> Net -> option Py.exn * Net.
Variable accept : WebSocket -> Net -> option Py.exn * Net.
Implicit Types (sends : list (WebSocket * option Py.exn)) (dead : list WebSocket).

(** A loop over clients whose calls all return changes nothing but the
    network. *)
Lemma deliver_all_returned clients message net sends :
  (forall ws n, ws ∈ clients -> (send_json ws message n).1 = None) ->
  exists net',
    deliver send_json clients message [] net sends
    = (None, [], net', sends ++ ((fun ws => (ws, None)) <$> clients)).
Proof.
  revert net sends. induction clients as [|ws clients IH]; intros net sends H.
  { exists net. simpl. by rewrite app_nil_r. }
  simpl. pose proof (H ws net ltac:(left)) as Hws.
  destruct (send_json ws message net) as [r net1]. simpl in Hws. subst r.
  destruct (IH net1 (sends ++ [(ws, None)])) as [net' ->].
  { intros ws' n Hin. apply H. by right. }
  exists net'. by rewrite <- app_assoc.
Qed.

(** X16. A round of [broadcast] in which no call of [send_json] raises leaves
    the registry exactly as it was and has called [send_json] once on every
    subscriber; with an empty registry it calls nothing and leaves the
    network untouched. *)
Theorem broadcast_without_failure (self : WSManager) (message : Msg) (net : Net) :
  (forall ws n, ws ∈ clients self -> (send_json ws message n).1 = None) ->
  let '(raised, self', net', sends) := broadcast send_json self message net in
  raised = None /\
  self' = self /\
  sends = (fun ws => (ws, None)) <$> elements (clients self) /\
  (clients self = ∅ -> net' = net /\ sends = []).
Proof.
  intros H. unfold broadcast.
  destruct (deliver_all_returned (elements (clients self)) message net [])
    as [net' Hd].
  { intros ws n Hin. apply H. by apply elem_of_elements. }
  rewrite Hd. simpl. do 3 (split; [done|]).
  intros He. rewrite He in Hd |- *. rewrite elements_empty in Hd |- *.
  simpl in Hd. by injection Hd as ->.
Qed.

(** X17. A round of [broadcast] that is left by an exception (a cancellation:
    only what is not an Exception gets out) prunes nothing: the registry is
    as it was, the raising call is the last one made, and the subscribers
    after it in the snapshot are not called. *)
Theorem cancelled_round_prunes_nothing (self : WSManager) (message : Msg) (net : Net) :
  let '(raised, self', net', sends) := broadcast send_json self message net in
  forall e, raised = Some e ->
    Py.is_Exception e = false /\
    self' = self /\
    sends.*1 `prefix_of` elements (clients self) /\
    exists ws, last sends = Some (ws, Some e).
Proof.
  unfold broadcast.
  destruct (deliver send_json (elements (clients self)) message [] net [])
    as [[[r dead] net1] sends] eqn:E.
  assert (Hlast : forall e, r = Some e -> exists ws, last sends = Some (ws, Some e)).
  { clear -E. revert E. generalize (@nil WebSocket) at 1. generalize (@nil (WebSocket * option Py.exn)).
    revert net. induction (elements (clients self)) as [|ws l IH]; intros net sends0 dead0 E e Hr.
    - simpl in E. congruence.
    - simpl in E. destruct (send_json ws message net) as [[e'|] net'].
      + destruct (Py.is_Exception e').
        * by eapply IH.
        * injection E as <- <- <- <-. injection Hr as ->. exists ws. apply last_snoc.
      + by eapply IH. }
  apply deliver_inv in E as ((called & Hs & Hp & _) & _ & Hexn); [|done].
  destruct r as [e0|]; [|done].
  intros e [= <-]. split; [by apply Hexn|]. split; [done|]. split; [|by apply Hlast].
  simpl in Hs. by rewrite Hs.
Qed.

(** X18. The registry is a set: [disconnect] is idempotent and harmless for a
    socket that is not registered, [connect] registers a socket only when
    [accept] returns (and then under whatever was registered already), and a
    [disconnect] after the [connect] of a new socket gives the registry back. *)
Theorem connect_disconnect_compose (self : WSManager) (ws : WebSocket) (net : Net) :
  disconnect (disconnect self ws) ws = disconnect self ws /\
  (ws ∉ clients self -> disconnect self ws = self) /\
  (ws ∉ clients (disconnect self ws)) /\
  (let '(raised, self', net') := connect accept self ws net in
   match raised with
   | Some e => self' = self /\ (accept ws net).1 = Some e
   | None =>
       ws ∈ clients self' /\
       clients self ⊆ clients self' /\
       (ws ∈ clients self -> self' = self) /\
       (ws ∉ clients self -> disconnect self' ws = self)
   end).
Proof.
  destruct self as [reg]. unfold disconnect, connect. simpl.
  assert (Hd : forall X : gset WebSocket, ws ∉ X -> X ∖ {[ws]} = X).
  { intros X HX. apply set_eq. intros x. rewrite elem_of_difference, elem_of_singleton.
    split; [by intros [? _]|]. intros Hx. split; [done|]. by intros ->. }
  assert (Hn : forall X : gset WebSocket, ws ∉ X ∖ {[ws]}).
  { intros X. rewrite elem_of_difference, elem_of_singleton. by intros [_ ?]. }
  split; [f_equal; apply Hd, Hn|]. split; [intros H; f_equal; by apply Hd|].
  split; [apply Hn|].
  destruct (accept ws net) as [[e|] net']; simpl; [done|].
  split; [apply elem_of_union; right; by apply elem_of_singleton|].
  split; [apply union_subseteq_l|].
  split; intros H; f_equal; apply set_eq; intros x.
  - rewrite elem_of_union, elem_of_singleton. split; [by intros [?| ->]|by left].
  - rewrite elem_of_difference, elem_of_union, elem_of_singleton.
    split; [by intros [[?|?] ?]|]. intros Hx. split; [by left|]. by intros ->.
Qed.

End HubProperties.

Lemma broadcast_without_failure_witness :
  let '(raised, self', inbox, sends) :=
    WS.broadcast (refusing 9%positive) {| WS.clients := {[1; 2]}%positive |} "tick" [] in
  raised = None /\ self' = {| WS.clients := {[1; 2]}%positive |} /\ length inbox = 2%nat.
Proof.
  assert (H : forall (ws : WS.WebSocket) (n : list (WS.WebSocket * string)),
            ws ∈ WS.clients {| WS.clients := {[1; 2]}%positive |} ->
            (refusing 9%positive ws "tick" n).1 = None).
  { intros ws n Hin. unfold refusing. destruct (decide (ws = 9%positive)) as [->|]; [|done].
    simpl in Hin. rewrite elem_of_union, !elem_of_singleton in Hin. by destruct Hin. }
  pose proof (broadcast_without_failure (refusing 9%positive)
                {| WS.clients := {[1; 2]}%positive |} "tick" [] H) as Hb.
  destruct (WS.broadcast (refusing 9%positive) _ "tick" []) as [[[raised self'] inbox] sends] eqn:E.
  destruct Hb as (-> & -> & Hs & _). split; [done|]. split; [done|].
  vm_compute in E. by injection E as <- <-.
Defined.

Lemma cancelled_round_prunes_nothing_witness :
  let '(raised, self', inbox, sends) :=
    WS.broadcast
      (fun ws (m : string) (n : list (WS.WebSocket * string)) =>
         if decide (ws = 2%positive)
         then (Some (Py.NotException "CancelledError"), n)
         else (None, n ++ [(ws, m)]))
      {| WS.clients := {[1; 2; 3]}%positive |} "tick" [] in
  raised = Some (Py.NotException "CancelledError") /\
  self' = {| WS.clients := {[1; 2; 3]}%positive |} /\
  sends.*1 `prefix_of` elements (WS.clients {| WS.clients := {[1; 2; 3]}%positive |}) /\
  exists ws, last sends = Some (ws, Some (Py.NotException "CancelledError")).
Proof.
  pose proof (cancelled_round_prunes_nothing
      (fun ws (m : string) (n : list (WS.WebSocket * string)) =>
         if decide (ws = 2%positive)
         then (Some (Py.NotException "CancelledError"), n)
         else (None, n ++ [(ws, m)]))
      {| WS.clients := {[1; 2; 3]}%positive |} "tick" []) as H.
  destruct (WS.broadcast _ _ _ _) as [[[raised self'] inbox] sends] eqn:E.
  assert (Hr : raised = Some (Py.NotException "CancelledError")).
  { vm_compute in E. by injection E as <- _ _ _. }
  split; [done|]. by destruct (H _ Hr) as (_ & ? & ? & ?).
Defined.

Section MainProperties.
Implicit Types (p : Main.Process) (submit : option Py.exn) (ts now : float).

(** X19. The callback of main.py counts every pulse, whatever happens to the
    notification: the state after [on_pulse] is the state after
    [state.on_pulse(ts)] in every case, no Exception reaches the producer
    thread, nothing is submitted before the loop is stored, and when the
    submission returns the pulse message is the last one submitted. *)
Theorem pulse_is_always_counted submit p ts :
  let '(raised, p') := Main.on_pulse submit p ts in
  Main.state p' = Geiger.on_pulse (Main.state p) ts /\
  (forall e, raised = Some e -> Py.is_Exception e = false /\ submit = Some e) /\
  (Main.MAIN_LOOP p = None -> raised = None /\ Main.MAIN_LOOP p' = None) /\
  (forall submitted, Main.MAIN_LOOP p = Some submitted ->
     Main.MAIN_LOOP p'
     = Some (match submit with None => submitted ++ [Main.Pulse ts] | Some _ => submitted end)).
Proof.
  unfold Main.on_pulse, Main.schedule_broadcast. simpl.
  destruct (Main.MAIN_LOOP p) as [q|] eqn:Hq; [|by repeat split].
  destruct submit as [e|]; [destruct (Py.is_Exception e) eqn:He|]; simpl;
    repeat split; try done; try congruence; by intros ? [= <-].
Qed.

(** X20. [api_reset] resets the state before anything can fail: the state
    afterwards is the reset one in every case, no Exception leaves the call,
    and when the submission returns the acknowledgement is queued behind the
    messages submitted before it. *)
Theorem api_reset_always_resets submit p now :
  let '(raised, p', printed) := Main.api_reset submit p now in
  Main.state p' = Geiger.reset (Main.state p) now /\
  (forall e, raised = Some e -> Py.is_Exception e = false) /\
  (forall submitted, Main.MAIN_LOOP p = Some submitted -> submit = None ->
     raised = None /\ Main.MAIN_LOOP p' = Some (submitted ++ [Main.ResetAck])) /\
  (Main.MAIN_LOOP p = None -> raised = None /\ Main.MAIN_LOOP p' = None) /\
  Geiger.snap_total (Main.api_snapshot p' now) = 0 /\
  Geiger.snap_elapsed (Main.api_snapshot p' now) = 0%float.
Proof.
  unfold Main.api_reset, Main.schedule_broadcast, Main.api_snapshot. simpl.
  assert (He0 : Geiger.snap_elapsed (Geiger.snapshot (Geiger.reset (Main.state p) now) now)
                = 0%float)
    by (rewrite snap_elapsed_eq; apply max_zero_sub_diag).
  assert (Ht0 : Geiger.snap_total (Geiger.snapshot (Geiger.reset (Main.state p) now) now) = 0)
    by apply snap_total_eq.
  destruct (Main.MAIN_LOOP p) as [q|] eqn:Hq; [|by repeat split].
  destruct submit as [e|]; [destruct (Py.is_Exception e) eqn:He|]; simpl;
    repeat split; try done; try congruence; try (by intros ? [= <-]).
Qed.

End MainProperties.

Section LoopProperties.
Context {Net : Type}.
Variable send_json : WS.WebSocket -> Main.Message -> Net -> option Py.exn * Net.
Variable accept : WS.WebSocket -> Net -> option Py.exn * Net.
Variable first_send : WS.WebSocket -> Main.Message -> Net -> option Main.Interrupt * Net.

(** X21. One turn of [second_loop] closes the second and sends what it just
    closed: the state afterwards is the ticked one, every call of
    [send_json] of the round carries the snapshot of that state, and with
    [max_series >= 1] the last entry of its [per_second] is the count of the
    second just closed, with a [running_mean] of the same length. *)
Theorem second_loop_turn_sends_closed_second (p : Main.Process) (manager : WS.WSManager)
    (net : Net) (now : float) :
  let '(raised, p', manager', net', sends) :=
    Main.second_loop_turn send_json p manager net now in
  let snap := Geiger.snapshot (Geiger.tick_second (Main.state p)) now in
  Main.state p' = Geiger.tick_second (Main.state p) /\
  Main.MAIN_LOOP p' = Main.MAIN_LOOP p /\
  (forall ws o, (ws, o) ∈ sends ->
     exists n n', send_json ws (Main.SnapshotMessage snap) n = (o, n')) /\
  (raised = None -> sends.*1 = elements (WS.clients manager)) /\
  length (Geiger.snap_running_mean snap) = length (Geiger.snap_per_second snap) /\
  (1 <= Geiger.max_series (Geiger.cfg (Main.state p)) ->
   last (Geiger.snap_per_second snap)
   = Some (Geiger._current_second_count (Main.state p))).
Proof.
  unfold Main.second_loop_turn, WS.broadcast. simpl.
  set (snap := Geiger.snapshot (Geiger.tick_second (Main.state p)) now).
  destruct (WS.deliver send_json (elements (WS.clients manager))
              (Main.SnapshotMessage snap) [] net []) as [[[r dead] net1] sends] eqn:E.
  pose proof (deliver_sends _ _ _ _ _ _ _ _ _ _ E) as Hcalls.
  apply deliver_inv in E as ((called & Hs & Hp & Hall) & _ & _); [|done].
  assert (Hps : Geiger.snap_per_second snap = Geiger.per_second (Geiger.tick_second (Main.state p))).
  { subst snap. unfold Geiger.snapshot. by destruct (0 <? _)%float. }
  assert (Hrest :
    length (Geiger.snap_running_mean snap) = length (Geiger.snap_per_second snap) /\
    (1 <= Geiger.max_series (Geiger.cfg (Main.state p)) ->
     last (Geiger.snap_per_second snap)
     = Some (Geiger._current_second_count (Main.state p)))).
  { split.
    - subst snap. by rewrite snap_running_mean_eq, prefix_means_length, Hps.
    - intros Hc. rewrite Hps, tick_second_per_second, trimmed_newest by done.
      apply newest_last. lia. }
  assert (Hcalls' : forall ws o, (ws, o) ∈ sends ->
            exists n n', send_json ws (Main.SnapshotMessage snap) n = (o, n')).
  { intros ws o Hin. destruct (Hcalls ws o Hin) as [Hnil|H]; [|done].
    by apply elem_of_nil in Hnil. }
  destruct Hrest as [Hlen Hlast].
  destruct r as [e|]; simpl; repeat split; try done.
  intros _. by rewrite Hs, (Hall eq_refl).
Qed.

(** X22. [ws_endpoint] leaks no subscriber: for a socket that was not
    registered before, and a registry that nothing else changes meanwhile,
    however the endpoint ends (a refused [accept], a failed first send, a
    disconnect or any other exception raised into the wait), the registry
    afterwards is the one before; a WebSocketDisconnect is caught, so the
    endpoint then returns. *)
Theorem ws_endpoint_leaves_registry (p : Main.Process) (manager : WS.WSManager)
    (ws : WS.WebSocket) (net : Net) (now : float) (interrupt : Main.Interrupt) :
  ws ∉ WS.clients manager ->
  let '(raised, manager', net') :=
    Main.ws_endpoint accept first_send p manager ws net now interrupt in
  manager' = manager /\
  ((accept ws net).1 = None ->
   (first_send ws (Main.SnapshotMessage (Geiger.snapshot (Main.state p) now))
      (accept ws net).2).1 = None ->
   raised = match interrupt with
            | Main.WebSocketDisconnect => None
            | Main.Raised e => Some e
            end).
Proof.
  intros Hnew. unfold Main.ws_endpoint, WS.connect.
  destruct (accept ws net) as [[e|] net1]; simpl; [done|].
  destruct (first_send ws _ net1) as [sent net2]; simpl.
  assert (Hback : WS.disconnect {| WS.clients := WS.clients manager ∪ {[ws]} |} ws = manager).
  { destruct manager as [reg]. unfold WS.disconnect. simpl in *. f_equal.
    apply set_eq. intros x. rewrite elem_of_difference, elem_of_union, elem_of_singleton.
    split; [by intros [[?|?] ?]|]. intros Hx. split; [by left|]. by intros ->. }
  rewrite Hback.
  destruct sent as [[|e]|]; simpl; [by split..|].
  destruct interrupt; by split.
Qed.

End LoopProperties.

Lemma ws_endpoint_leaves_registry_witness :
  let '(raised, manager', inbox) :=
    Main.ws_endpoint
      (fun _ (n : list (WS.WebSocket * Main.Message)) => (None, n))
      (fun ws m n => (None, n ++ [(ws, m)]))
      {| Main.state := Geiger.init Geiger.default_config 0; Main.MAIN_LOOP := Some [] |}
      {| WS.clients := {[1]}%positive |} 2%positive [] 3 Main.WebSocketDisconnect in
  raised = None /\ manager' = {| WS.clients := {[1]}%positive |} /\ length inbox = 1%nat.
Proof.
  pose proof (ws_endpoint_leaves_registry
      (fun _ (n : list (WS.WebSocket * Main.Message)) => (None, n))
      (fun ws m n => (None, n ++ [(ws, m)]))
      {| Main.state := Geiger.init Geiger.default_config 0; Main.MAIN_LOOP := Some [] |}
      {| WS.clients := {[1]}%positive |} 2%positive [] 3 Main.WebSocketDisconnect) as H.
  destruct (Main.ws_endpoint _ _ _ _ _ _ _ _) as [[raised manager'] inbox] eqn:E.
  destruct H as [-> Hr].
  { simpl. rewrite elem_of_singleton. done. }
  split; [by apply Hr|]. split; [done|].
  unfold Main.ws_endpoint, WS.connect in E. simpl in E. by inversion E.
Defined.
